(** * The connection Guardian of pkg/driver.go

    A shallow embedding of [Driver] (the Guardian), of its methods
    [ExecuteQuery], [nonblockExecuteQuery], [NewSession], [CloseSession],
    [reconnect], [nonblockClose], [Close], and of [executeHook] and
    [NewDriver].

    The neo4j client library, the Go runtime ([debug.Stack]) and the
    caller's result hook are outside the package: they are an interface
    ([Environment]) whose operations act on an abstract state of the outside
    world.  The methods run in a monad that threads the Guardian, the
    outside world and a log of every call that leaves the package, and that
    carries Go's two ways of leaving a function: returning and panicking.
    The recursion of [nonblockExecuteQuery] has no bound in the source; the
    embedding counts the nested calls it may still make. *)

From Stdlib Require Import String Ascii List Bool Arith Lia.
From ExtLib Require Import Structures.Monad.
Import ListNotations.
Import MonadNotation.
Local Open Scope monad_scope.
Local Open Scope list_scope.

(** ** Go values the package handles *)

(** A non-nil [error]: the package only ever reads its [Error()] text. *)
Record error : Type := errorString { Error : string }.

(** A non-nil [interface{}], as far as [fmt]'s [%v] is concerned. *)
Inductive value : Type :=
| ErrorValue (e : error)
| OtherValue (rendering : string).

(** [interface{}]; [None] is Go's [nil]. *)
Definition any : Type := option value.

Definition fmt_v (v : value) : string :=
  match v with
  | ErrorValue e => Error e
  | OtherValue rendering => rendering
  end.

(** [map[string]interface{}], the query parameters. *)
Definition Params : Type := list (string * any).

Record AuthToken : Type :=
  { principal : string; credentials : string; realm : string }.

(** [neo4j.BasicAuth(username, password, realm)]. *)
Definition BasicAuth (username pwd rlm : string) : AuthToken :=
  {| principal := username; credentials := pwd; realm := rlm |}.

Inductive AccessMode : Type := AccessModeWrite | AccessModeRead.

Record SessionConfig : Type := { SessionAccessMode : AccessMode }.

(** How a Go call ends: it returns, or it panics with a value
    ([panic(nil)] is [Panicked None]). *)
Inductive outcome (A : Type) : Type :=
| Returned (a : A)
| Panicked (v : any).
Arguments Returned {A} a.
Arguments Panicked {A} v.

(** ** What lies outside the package *)

Class Environment : Type :=
  { env : Type;                    (* servers, network, library internals *)
    context : Type;                (* context.Context *)
    DriverWithContext : Type;      (* a non-nil neo4j.DriverWithContext *)
    SessionWithContext : Type;
    ResultWithContext : Type;
    NewDriverWithContext :
      string -> AuthToken -> env -> (DriverWithContext + error) * env;
    DriverNewSession :
      DriverWithContext -> context -> SessionConfig -> env ->
      SessionWithContext * env;
    DriverVerifyConnectivity :
      DriverWithContext -> context -> env -> option error * env;
    DriverClose : DriverWithContext -> context -> env -> option error * env;
    SessionRun :
      SessionWithContext -> context -> string -> Params -> env ->
      (ResultWithContext + error) * env;
    SessionClose :
      SessionWithContext -> context -> env -> option error * env;
    debug_Stack : env -> string }.

Section Guardian.
Context {E : Environment}.

(** [type ResultsHookFn func(result neo4j.ResultWithContext) error]: the
    caller's hook reads the cursor, so it acts on the outside world; it
    returns an error or nil, or panics. *)
Definition ResultsHookFn : Type :=
  ResultWithContext -> env -> outcome (option error) * env.

(** [type Driver struct]: a nil interface in the field [driver] is [None]. *)
Record Driver : Type :=
  { driver : option DriverWithContext;
    dbURI : string;
    user : string;
    password : string }.

Record Settings : Type :=
  { ConnectionString : string; User : string; Password : string }.

(** Every lock operation and every call that leaves the package, in the
    order the code makes them. *)
Inductive event : Type :=
| AccessRLock | AccessRUnlock
| AccessLock | AccessUnlock
| RecoveryLock | RecoveryUnlock
| CallNewDriver (target : string) (auth : AuthToken)
                (r : DriverWithContext + error)
| CallNewSession (h : DriverWithContext) (cfg : SessionConfig)
                 (s : SessionWithContext)
| CallRun (s : SessionWithContext) (query : string) (params : Params)
          (r : ResultWithContext + error)
| CallSessionClose (s : SessionWithContext)
| CallVerifyConnectivity (h : DriverWithContext) (r : option error)
| CallDriverClose (h : DriverWithContext)
| CallHook (result : ResultWithContext) (o : outcome (option error)).

(** The Guardian behind the receiver [d], the outside world, and the log. *)
Record state : Type :=
  { this : Driver; world : env; log : list event }.

(** ** The monad of the methods

    [None] means the nesting budget of [nonblockExecuteQuery] ran out. *)
Definition M (A : Type) : Type := state -> option (outcome A * state).

#[local] Instance Monad_M : Monad M :=
  {| ret := fun A (a : A) s => Some (Returned a, s);
     bind := fun A B (m : M A) (f : A -> M B) s =>
       match m s with
       | None => None
       | Some (Returned a, s') => f a s'
       | Some (Panicked v, s') => Some (Panicked v, s')
       end |}.

Definition panic {A : Type} (v : any) : M A :=
  fun s => Some (Panicked v, s).

Definition exhausted {A : Type} : M A := fun _ => None.

(** [defer cleanup(); body]: the deferred call runs when the body is left,
    by a return or by a panic, and what it returns is dropped. *)
Definition defer {A : Type} (cleanup : M unit) (body : M A) : M A :=
  fun s =>
    match body s with
    | None => None
    | Some (o, s') =>
        match cleanup s' with
        | None => None
        | Some (Returned _, s'') => Some (o, s'')
        | Some (Panicked v, s'') => Some (Panicked v, s'')
        end
    end.

(** [defer func() { if r := recover(); r != nil { err = handler(r) } }()]
    in a function whose named result is still [zero] wherever the body can
    panic.  [recover()] ends the panic whatever its value; the handler runs
    only when that value is not nil. *)
Definition defer_recover {A : Type} (zero : A) (handler : value -> M A)
    (body : M A) : M A :=
  fun s =>
    match body s with
    | None => None
    | Some (Returned a, s') => Some (Returned a, s')
    | Some (Panicked None, s') => Some (Returned zero, s')
    | Some (Panicked (Some r), s') => handler r s'
    end.

Definition emit (e : event) : M unit :=
  fun s => Some (Returned tt,
                 {| this := this s; world := world s; log := log s ++ [e] |}).

Definition get_this : M Driver := fun s => Some (Returned (this s), s).

Definition set_driver (h : option DriverWithContext) : M unit :=
  fun s => Some (Returned tt,
                 {| this := {| driver := h; dbURI := dbURI (this s);
                               user := user (this s);
                               password := password (this s) |};
                    world := world s; log := log s |}).

(** A call into the outside world, logged with what it returned. *)
Definition call {A : Type} (op : env -> A * env) (ev : A -> event) : M A :=
  fun s =>
    let (a, w) := op (world s) in
    Some (Returned a, {| this := this s; world := w; log := log s ++ [ev a] |}).

(** The runtime's panic for a method call on a nil interface. *)
Definition nil_dereference : any :=
  Some (ErrorValue (errorString
    "runtime error: invalid memory address or nil pointer dereference")).

(** ** The package *)

Definition closed_driver_message : string :=
  "Trying to create session on closed driver".

Definition newline : string := String (ascii_of_nat 10) EmptyString.

(** [fmt.Errorf("[neo4j onResults] recovered from panic: %v\n\n%s", r, stack)] *)
Definition recovered_error (r : value) (stack : string) : error :=
  errorString
    ("[neo4j onResults] recovered from panic: " ++ fmt_v r
       ++ newline ++ newline ++ stack)%string.

Definition call_hook (onResults : ResultsHookFn) (result : ResultWithContext)
    : M (option error) :=
  fun s =>
    let (o, w) := onResults result (world s) in
    Some (o, {| this := this s; world := w;
                log := log s ++ [CallHook result o] |}).

Definition executeHook (onResults : ResultsHookFn)
    (result : ResultWithContext) : M (option error) :=
  defer_recover None
    (fun r s =>
       Some (Returned (Some (recovered_error r (debug_Stack (world s)))), s))
    (err <- call_hook onResults result ;;
     match err with
     | Some e => ret (Some e)
     | None => ret None
     end).

Definition NewDriver (settings : Settings) : M (Driver + error) :=
  r <- call (NewDriverWithContext (ConnectionString settings)
               (BasicAuth (User settings) (Password settings) ""))
            (CallNewDriver (ConnectionString settings)
               (BasicAuth (User settings) (Password settings) "")) ;;
  match r with
  | inr err => ret (inr err)
  | inl h =>
      ret (inl {| driver := Some h; dbURI := ConnectionString settings;
                  user := User settings; password := Password settings |})
  end.

Definition NewSession (ctx : context)
    : M (SessionWithContext * option error) :=
  d <- get_this ;;
  match driver d with
  | None => panic nil_dereference
  | Some h =>
      session <- call (DriverNewSession h ctx
                         {| SessionAccessMode := AccessModeWrite |})
                      (CallNewSession h
                         {| SessionAccessMode := AccessModeWrite |}) ;;
      ret (session, None)
  end.

Definition CloseSession (ctx : context) (session : SessionWithContext)
    : M unit :=
  _ <- call (SessionClose session ctx) (fun _ => CallSessionClose session) ;;
  ret tt.

Definition nonblockClose (ctx : context) : M unit :=
  d <- get_this ;;
  match driver d with
  | None => ret tt
  | Some h =>
      _ <- call (DriverClose h ctx) (fun _ => CallDriverClose h) ;;
      ret tt
  end.

Definition reconnect (ctx : context) : M (option error) :=
  emit RecoveryLock ;;
  defer (emit RecoveryUnlock)
    (d <- get_this ;;
     match driver d with
     | None => panic nil_dereference
     | Some h =>
         err <- call (DriverVerifyConnectivity h ctx)
                     (CallVerifyConnectivity h) ;;
         match err with
         | None => ret None
         | Some _ =>
             r <- NewDriver {| ConnectionString := dbURI d; User := user d;
                               Password := password d |} ;;
             match r with
             | inr err => ret (Some err)
             | inl fresh =>
                 nonblockClose ctx ;;
                 set_driver (driver fresh) ;;
                 ret None
             end
         end
     end).

(** The test of line 72 on the text of a [Run] error. *)
Definition needs_reconnect (err : error) : bool :=
  (Error err =? closed_driver_message)%string
  || prefix "ConnectivityError" (Error err).

Fixpoint nonblockExecuteQuery (depth : nat) (ctx : context) (query : string)
    (params : Params) (onResults : ResultsHookFn) : M (option error) :=
  match depth with
  | O => exhausted
  | S depth' =>
      r <- NewSession ctx ;;
      match r with
      | (_, Some err) => ret (Some err)
      | (session, None) =>
          defer (CloseSession ctx session)
            (r <- call (SessionRun session ctx query params)
                       (CallRun session query params) ;;
             match r with
             | inr err =>
                 if needs_reconnect err then
                   err <- reconnect ctx ;;
                   match err with
                   | Some e => ret (Some e)
                   | None =>
                       nonblockExecuteQuery depth' ctx query params onResults
                   end
                 else ret (Some err)
             | inl result =>
                 err <- executeHook onResults result ;;
                 match err with
                 | Some e => ret (Some e)
                 | None => ret None
                 end
             end)
      end
  end.

Definition ExecuteQuery (depth : nat) (ctx : context) (query : string)
    (params : Params) (onResults : ResultsHookFn) : M (option error) :=
  emit AccessRLock ;;
  defer (emit AccessRUnlock)
    (nonblockExecuteQuery depth ctx query params onResults).

Definition Close (ctx : context) : M unit :=
  emit AccessLock ;;
  defer (emit AccessUnlock) (nonblockClose ctx).

End Guardian.

(* The expected type of an event fixes its environment before its arguments
   are read, so that events of a concrete world can be written with
   numerals. *)
Arguments CallNewDriver {E} & target auth r.
Arguments CallNewSession {E} & h cfg s.
Arguments CallRun {E} & s query params r.
Arguments CallSessionClose {E} & s.
Arguments CallVerifyConnectivity {E} & h r.
Arguments CallDriverClose {E} & h.
Arguments CallHook {E} & result o.

(** ** The scenario of the test suite

    [connectToNeo] of the test suite builds a Guardian and keeps it in the
    suite; the methods are then called on that Guardian. *)
Section Scenario.
Context {E : Environment}.
#[local] Existing Instance Monad_M.

Definition adopt (d : Driver) : M unit :=
  fun s => Some (Returned tt, {| this := d; world := world s; log := log s |}).

Definition connectToNeo (settings : Settings) : M (option error) :=
  r <- NewDriver settings ;;
  match r with
  | inr err => ret (Some err)
  | inl d => adopt d ;; ret None
  end.

(** Construct, [Close], then [ExecuteQuery]. *)
Definition close_then_query (settings : Settings) (depth : nat)
    (ctx : context) (query : string) (params : Params)
    (onResults : ResultsHookFn) : M (option error) :=
  err <- connectToNeo settings ;;
  match err with
  | Some e => ret (Some e)
  | None =>
      Close ctx ;;
      ExecuteQuery depth ctx query params onResults
  end.

End Scenario.

(** ** Reading states and logs *)
Section Reading.
Context {E : Environment}.
#[local] Existing Instance Monad_M.

Definition write_mode : SessionConfig :=
  {| SessionAccessMode := AccessModeWrite |}.

(** The state once further calls have returned and been logged. *)
Definition after (s : state) (w : env) (evs : list event) : state :=
  {| this := this s; world := w; log := log s ++ evs |}.

(** The Guardian [d] with another handle in place. *)
Definition with_handle (d : Driver) (h : DriverWithContext) : Driver :=
  {| driver := Some h; dbURI := dbURI d; user := user d;
     password := password d |}.

(** The family of [Run] errors the specification calls connectivity
    failures: the closed-handle message, or a text that begins with
    [ConnectivityError]. *)
Definition connectivity_class (err : error) : Prop :=
  Error err = "Trying to create session on closed driver"%string
  \/ exists rest, Error err = ("ConnectivityError" ++ rest)%string.

Definition is_reconnect (e : event) : bool :=
  match e with RecoveryLock => true | _ => false end.

Definition is_construction (e : event) : bool :=
  match e with CallNewDriver _ _ _ => true | _ => false end.

Definition is_new_session (e : event) : bool :=
  match e with CallNewSession _ _ _ => true | _ => false end.

Definition is_session_close (e : event) : bool :=
  match e with CallSessionClose _ => true | _ => false end.

Definition is_driver_close (e : event) : bool :=
  match e with CallDriverClose _ => true | _ => false end.

Definition is_hook (e : event) : bool :=
  match e with CallHook _ _ => true | _ => false end.

Definition count_events (p : event -> bool) (evs : list event) : nat :=
  length (filter p evs).

(** Some [p] event is followed, later in the log, by a [q] event. *)
Fixpoint occurs_before (p q : event -> bool) (evs : list event) : bool :=
  match evs with
  | [] => false
  | e :: rest => (p e && existsb q rest) || occurs_before p q rest
  end.

(** Every session handed out in [evs] is closed later in [evs]. *)
Fixpoint all_sessions_closed (evs : list event) : Prop :=
  match evs with
  | [] => True
  | CallNewSession _ _ session :: rest =>
      In (CallSessionClose session) rest /\ all_sessions_closed rest
  | _ :: rest => all_sessions_closed rest
  end.

(** What [executeHook] returns for each way the hook can end. *)
Definition hook_verdict (o : outcome (option error)) (w : env)
    : option error :=
  match o with
  | Returned err => err
  | Panicked None => None
  | Panicked (Some r) => Some (recovered_error r (debug_Stack w))
  end.

(** The body that runs under the deferred [CloseSession], from the [Run]
    result on. *)
Definition after_run (depth : nat) (ctx : context) (query : string)
    (params : Params) (onResults : ResultsHookFn)
    (r : ResultWithContext + error) : M (option error) :=
  match r with
  | inr err =>
      if needs_reconnect err then
        bind (reconnect ctx) (fun failure =>
          match failure with
          | Some e => ret (Some e)
          | None => nonblockExecuteQuery depth ctx query params onResults
          end)
      else ret (Some err)
  | inl result =>
      bind (executeHook onResults result) (fun failure =>
        match failure with
        | Some e => ret (Some e)
        | None => ret None
        end)
  end.

End Reading.

(** ** A scripted outside world

    A stand-in for the library on which the methods can be run: handles,
    sessions and cursors are numbers, a closed handle refuses to run or to
    verify, and the faults the network will inject are listed up front.
    [NewDriverWithContext] only parses its target, and rejects an empty one. *)
Module Sim.

Record World : Type :=
  { fresh : nat;                  (* the next handle to hand out *)
    closed : list nat;            (* handles closed so far *)
    run_faults : list error;      (* errors of the coming Runs on open handles *)
    verify_faults : list error;   (* same for VerifyConnectivity *)
    build_faults : list error }.  (* same for handle constructions *)

Definition is_closed (h : nat) (w : World) : bool :=
  existsb (Nat.eqb h) (closed w).

Definition new_driver (target : string) (_ : AuthToken) (w : World)
    : (nat + error) * World :=
  if (target =? "")%string
  then (inr (errorString "UsageError: empty target"), w)
  else match build_faults w with
       | [] =>
           (inl (fresh w),
            {| fresh := S (fresh w); closed := closed w;
               run_faults := run_faults w; verify_faults := verify_faults w;
               build_faults := [] |})
       | e :: rest =>
           (inr e, {| fresh := fresh w; closed := closed w;
                      run_faults := run_faults w;
                      verify_faults := verify_faults w;
                      build_faults := rest |})
       end.

Definition new_session (h : nat) (_ : unit) (_ : SessionConfig) (w : World)
    : nat * World := (h, w).

Definition verify (h : nat) (_ : unit) (w : World) : option error * World :=
  if is_closed h w then (Some (errorString "driver is closed"), w)
  else match verify_faults w with
       | [] => (None, w)
       | e :: rest =>
           (Some e, {| fresh := fresh w; closed := closed w;
                       run_faults := run_faults w; verify_faults := rest;
                       build_faults := build_faults w |})
       end.

Definition close_driver (h : nat) (_ : unit) (w : World)
    : option error * World :=
  (None, {| fresh := fresh w; closed := h :: closed w;
            run_faults := run_faults w; verify_faults := verify_faults w;
            build_faults := build_faults w |}).

Definition run (session : nat) (_ : unit) (_ : string) (_ : Params)
    (w : World) : (nat + error) * World :=
  if is_closed session w
  then (inr (errorString "Trying to create session on closed driver"), w)
  else match run_faults w with
       | [] => (inl 0, w)
       | e :: rest =>
           (inr e, {| fresh := fresh w; closed := closed w;
                      run_faults := rest; verify_faults := verify_faults w;
                      build_faults := build_faults w |})
       end.

Definition close_session (_ : nat) (_ : unit) (w : World)
    : option error * World := (None, w).

Definition stack (_ : World) : string := "goroutine 1 [running]:".

#[export] Instance sim : Environment :=
  {| env := World; context := unit;
     DriverWithContext := nat; SessionWithContext := nat;
     ResultWithContext := nat;
     NewDriverWithContext := new_driver;
     DriverNewSession := new_session;
     DriverVerifyConnectivity := verify;
     DriverClose := close_driver;
     SessionRun := run;
     SessionClose := close_session;
     debug_Stack := stack |}.

Definition unreachable : error :=
  errorString "ConnectivityError: Unable to retrieve routing table".
Definition syntax_error : error :=
  errorString "Neo4jError: Neo.ClientError.Statement.SyntaxError".
Definition refused : error := errorString "dial tcp: connection refused".

(** A world that hands out handle [next] next and will inject the given
    faults. *)
Definition faulty (next : nat) (runs verifies builds : list error) : World :=
  {| fresh := next; closed := []; run_faults := runs;
     verify_faults := verifies; build_faults := builds |}.

Definition quiet : World := faulty 1 [] [] [].

(** The settings, the query and the parameters of the test suite. *)
Definition connectionSettings : Settings :=
  {| ConnectionString := "neo4j://localhost"; User := "neo4j";
     Password := "letmein!" |}.

Definition simple_query : string := "CREATE (test:Test) return true".

Definition no_params : Params := [].

Definition auth : AuthToken := BasicAuth "neo4j" "letmein!" "".

Definition guardian (h : nat) : Driver (E := sim) :=
  {| driver := Some h; dbURI := "neo4j://localhost"; user := "neo4j";
     password := "letmein!" |}.

(** A Guardian that holds handle 0, in world [w], with an empty log. *)
Definition start (w : World) : state (E := sim) :=
  {| this := guardian 0; world := w; log := [] |}.

(** Before [connectToNeo]: no Guardian yet. *)
Definition boot (w : World) : state (E := sim) :=
  {| this := {| driver := None; dbURI := ""; user := ""; password := "" |};
     world := w; log := [] |}.

Definition hook_ok : ResultsHookFn (E := sim) := fun _ w => (Returned None, w).
Definition hook_fails : ResultsHookFn (E := sim) :=
  fun _ w => (Returned (Some (errorString "no records")), w).
Definition hook_panics (v : any) : ResultsHookFn (E := sim) :=
  fun _ w => (Panicked v, w).

(** An outage: the next [Run] and the next [VerifyConnectivity] fail, a
    new handle can be built. *)
Definition outage : World := faulty 1 [unreachable] [refused] [].

(** The same once the failed [Run] is over, *)
Definition outage_seen : World := faulty 1 [] [refused] [].

(** and once handle 0 has been replaced by handle 1. *)
Definition rebuilt : World :=
  {| fresh := 2; closed := [0]; run_faults := []; verify_faults := [];
     build_faults := [] |}.

(** A total outage: no handle can be built either. *)
Definition blackout : World := faulty 1 [unreachable] [refused] [refused].

(** The world of the test suite: reachable, no handle handed out yet; *)
Definition pristine : World := faulty 0 [] [] [].

(** once handle 0 has been built and closed; *)
Definition shut : World :=
  {| fresh := 1; closed := [0]; run_faults := []; verify_faults := [];
     build_faults := [] |}.

(** and once handle 1 has been built and handle 0 closed again. *)
Definition reopened : World :=
  {| fresh := 2; closed := [0; 0]; run_faults := []; verify_faults := [];
     build_faults := [] |}.

Definition closed_driver : error :=
  errorString "Trying to create session on closed driver".

End Sim.

(* Lets Rocq find the scripted world from the types of numerals. *)
Canonical Structure Sim.sim.


(** ** Calls that come back

    What a call of [nonblockExecuteQuery] on a Guardian that holds a handle
    has done by the time it comes back: the Guardian and the world it
    started from, the calls it made, how it ended, and the Guardian and the
    world it leaves.  One rule per way through the function. *)
Section Completed.
Context {E : Environment}.
Variables (ctx : context) (query : string) (params : Params)
  (onResults : ResultsHookFn).

Inductive attempt
  : Driver -> env -> list event -> outcome (option error) -> Driver -> env
    -> Prop :=
| attempt_hook d w h session w1 result w2 o w3 ce w4 :
    driver d = Some h ->
    DriverNewSession h ctx write_mode w = (session, w1) ->
    SessionRun session ctx query params w1 = (inl result, w2) ->
    onResults result w2 = (o, w3) ->
    SessionClose session ctx w3 = (ce, w4) ->
    attempt d w
      [CallNewSession h write_mode session;
       CallRun session query params (inl result);
       CallHook result o;
       CallSessionClose session]
      (Returned (hook_verdict o w3)) d w4
| attempt_error d w h session w1 err w2 ce w3 :
    driver d = Some h ->
    DriverNewSession h ctx write_mode w = (session, w1) ->
    SessionRun session ctx query params w1 = (inr err, w2) ->
    needs_reconnect err = false ->
    SessionClose session ctx w2 = (ce, w3) ->
    attempt d w
      [CallNewSession h write_mode session;
       CallRun session query params (inr err);
       CallSessionClose session]
      (Returned (Some err)) d w3
| attempt_not_rebuilt d w h session w1 err w2 e0 w3 failure w4 ce w5 :
    driver d = Some h ->
    DriverNewSession h ctx write_mode w = (session, w1) ->
    SessionRun session ctx query params w1 = (inr err, w2) ->
    needs_reconnect err = true ->
    DriverVerifyConnectivity h ctx w2 = (Some e0, w3) ->
    NewDriverWithContext (dbURI d) (BasicAuth (user d) (password d) "") w3
    = (inr failure, w4) ->
    SessionClose session ctx w4 = (ce, w5) ->
    attempt d w
      [CallNewSession h write_mode session;
       CallRun session query params (inr err);
       RecoveryLock;
       CallVerifyConnectivity h (Some e0);
       CallNewDriver (dbURI d) (BasicAuth (user d) (password d) "")
         (inr failure);
       RecoveryUnlock;
       CallSessionClose session]
      (Returned (Some failure)) d w5
| attempt_retry_verified d w h session w1 err w2 w3 evs o d' w' ce w'' :
    driver d = Some h ->
    DriverNewSession h ctx write_mode w = (session, w1) ->
    SessionRun session ctx query params w1 = (inr err, w2) ->
    needs_reconnect err = true ->
    DriverVerifyConnectivity h ctx w2 = (None, w3) ->
    attempt d w3 evs o d' w' ->
    SessionClose session ctx w' = (ce, w'') ->
    attempt d w
      ([CallNewSession h write_mode session;
        CallRun session query params (inr err);
        RecoveryLock;
        CallVerifyConnectivity h None;
        RecoveryUnlock]
       ++ evs ++ [CallSessionClose session])
      o d' w''
| attempt_retry_rebuilt d w h session w1 err w2 e0 w3 h' w4 cd w5 evs o d' w'
    ce w'' :
    driver d = Some h ->
    DriverNewSession h ctx write_mode w = (session, w1) ->
    SessionRun session ctx query params w1 = (inr err, w2) ->
    needs_reconnect err = true ->
    DriverVerifyConnectivity h ctx w2 = (Some e0, w3) ->
    NewDriverWithContext (dbURI d) (BasicAuth (user d) (password d) "") w3
    = (inl h', w4) ->
    DriverClose h ctx w4 = (cd, w5) ->
    attempt (with_handle d h') w5 evs o d' w' ->
    SessionClose session ctx w' = (ce, w'') ->
    attempt d w
      ([CallNewSession h write_mode session;
        CallRun session query params (inr err);
        RecoveryLock;
        CallVerifyConnectivity h (Some e0);
        CallNewDriver (dbURI d) (BasicAuth (user d) (password d) "")
          (inl h');
        CallDriverClose h;
        RecoveryUnlock]
       ++ evs ++ [CallSessionClose session])
      o d' w''.

End Completed.

(** ** More readings of the log *)
Section Accounting.
Context {E : Environment}.
#[local] Existing Instance Monad_M.

Definition is_run (e : event) : bool :=
  match e with CallRun _ _ _ _ => true | _ => false end.

Definition is_failed_construction (e : event) : bool :=
  match e with CallNewDriver _ _ (inr _) => true | _ => false end.

Definition is_access_lock (e : event) : bool :=
  match e with
  | AccessRLock | AccessRUnlock | AccessLock | AccessUnlock => true
  | _ => false
  end.

(** The sessions handed out, run on, and closed, in the order of the log. *)
Fixpoint opened_sessions (evs : list event) : list SessionWithContext :=
  match evs with
  | [] => []
  | CallNewSession _ _ session :: rest => session :: opened_sessions rest
  | _ :: rest => opened_sessions rest
  end.

Fixpoint ran_sessions (evs : list event) : list SessionWithContext :=
  match evs with
  | [] => []
  | CallRun session _ _ _ :: rest => session :: ran_sessions rest
  | _ :: rest => ran_sessions rest
  end.

Fixpoint closed_sessions (evs : list event) : list SessionWithContext :=
  match evs with
  | [] => []
  | CallSessionClose session :: rest => session :: closed_sessions rest
  | _ :: rest => closed_sessions rest
  end.

(** The handles built, and the handles closed, in the order of the log. *)
Fixpoint built_handles (evs : list event) : list DriverWithContext :=
  match evs with
  | [] => []
  | CallNewDriver _ _ (inl h) :: rest => h :: built_handles rest
  | _ :: rest => built_handles rest
  end.

Fixpoint closed_handles (evs : list event) : list DriverWithContext :=
  match evs with
  | [] => []
  | CallDriverClose h :: rest => h :: closed_handles rest
  | _ :: rest => closed_handles rest
  end.

(** Reads a log with the recovery lock [held] or not, and gives whether it is
    held at the end.  [None] when the log breaks the discipline: the lock
    taken while held or released while free; a verification, a construction
    or a handle [Close] without it; a session, a [Run] or the hook under
    it; or the access lock touched at all. *)
Fixpoint recovery_lock_after (held : bool) (evs : list event) : option bool :=
  match evs with
  | [] => Some held
  | e :: rest =>
      match e, held with
      | RecoveryLock, false => recovery_lock_after true rest
      | RecoveryUnlock, true => recovery_lock_after false rest
      | CallVerifyConnectivity _ _, true
      | CallNewDriver _ _ _, true
      | CallDriverClose _, true => recovery_lock_after true rest
      | CallNewSession _ _ _, false
      | CallRun _ _ _ _, false
      | CallSessionClose _, false
      | CallHook _ _, false => recovery_lock_after false rest
      | _, _ => None
      end
  end.

(** Reads a log with [cur] as the handle the Guardian holds: every session
    is opened on, and every verification made of, the handle held at that
    point, which is the last handle built, or [cur] before any was. *)
Fixpoint uses_current_handle (cur : DriverWithContext) (evs : list event)
    : Prop :=
  match evs with
  | [] => True
  | CallNewSession h _ _ :: rest => h = cur /\ uses_current_handle cur rest
  | CallVerifyConnectivity h _ :: rest =>
      h = cur /\ uses_current_handle cur rest
  | CallNewDriver _ _ (inl h') :: rest => uses_current_handle h' rest
  | _ :: rest => uses_current_handle cur rest
  end.

(** What every request of a call for [query] with [params] on Guardian [d]
    must look like: sessions in write mode, the caller's query and
    parameters, constructions from the stored endpoint and credentials. *)
Definition faithful_request (d : Driver) (query : string) (params : Params)
    (e : event) : Prop :=
  match e with
  | CallNewSession _ cfg _ => cfg = write_mode
  | CallRun _ query' params' _ => query' = query /\ params' = params
  | CallNewDriver target auth _ =>
      target = dbURI d /\ auth = BasicAuth (user d) (password d) ""
  | _ => True
  end.

(** The error [err] is the verdict of the hook that ended as [o]: the error
    it returned, or the error made of its panic value and some stack. *)
Definition from_hook (o : outcome (option error)) (err : error) : Prop :=
  o = Returned (Some err)
  \/ exists r stack, o = Panicked (Some r) /\ err = recovered_error r stack.

(** Where an error returned by a call can come from, given its log. *)
Definition error_source (evs : list event) (err : error) : Prop :=
  (exists session query params,
      In (CallRun session query params (inr err)) evs
      /\ needs_reconnect err = false)
  \/ (exists target auth, In (CallNewDriver target auth (inr err)) evs)
  \/ (exists result o, In (CallHook result o) evs /\ from_hook o err).

(** [Close], [n] times in a row. *)
Fixpoint Close_times (n : nat) (ctx : context) : M unit :=
  match n with
  | O => ret tt
  | S n' => Close ctx ;; Close_times n' ctx
  end.

End Accounting.

(** ** The query of the test suite

    [executeSimpleQuery] reads the first record of the cursor; the cursor
    and its records belong to the library. *)

(** An element of [Record.Values], as far as the type switch [.(bool)]
    goes. *)
Inductive field : Type :=
| BoolField (b : bool)
| NilField
| OtherField (rendering : string).

Record Record_ : Type := { Values : list field; Keys : list string }.

Class Cursor (E : Environment) : Type :=
  { (* result.NextRecord(ctx, &record): the record, or nil at the end *)
    NextRecord :
      ResultWithContext -> context -> env -> option Record_ * env }.

Section SimpleQuery.
Context {E : Environment} {C : Cursor E}.

(** The hook that [executeSimpleQuery] passes. *)
Definition simple_hook (ctx : context) : ResultsHookFn :=
  fun result w =>
    let (record, w') := NextRecord result ctx w in
    (Returned
       match record with
       | None => Some (errorString "no records")
       | Some r =>
           match Values r with
           | [] => Some (errorString "no records")
           | BoolField _ :: _ => None
           | _ :: _ => Some (errorString "expected value to be bool")
           end
       end,
     w').

Definition executeSimpleQuery (depth : nat) (ctx : context)
    : M (option error) :=
  ExecuteQuery depth ctx "CREATE (test:Test) return true" [] (simple_hook ctx).

End SimpleQuery.

(** ** Two more scripted worlds *)

(** The cursors of [Sim]: cursor 0 holds one record with a boolean, cursor 1
    one record without values, cursor 2 one record with a number, and any
    other cursor is at its end. *)
Module SimCursor.

Definition next_record (result : nat) (_ : unit) (w : Sim.World)
    : option Record_ * Sim.World :=
  (match result with
   | 0 => Some {| Values := [BoolField true]; Keys := ["true"%string] |}
   | 1 => Some {| Values := []; Keys := [] |}
   | 2 => Some {| Values := [OtherField "1"]; Keys := ["n"%string] |}
   | _ => None
   end, w).

#[export] Instance cursor : Cursor Sim.sim := {| NextRecord := next_record |}.

End SimCursor.

(** A world that stays down: every [Run] fails with a connectivity error and
    no handle verifies, while handles can be built at will.  The world is
    the number of handles built so far. *)
Module Down.

Definition new_driver (_ : string) (_ : AuthToken) (w : nat)
    : (nat + error) * nat := (inl w, S w).

Definition run (_ : nat) (_ : unit) (_ : string) (_ : Params) (w : nat)
    : (nat + error) * nat := (inr Sim.unreachable, w).

Definition verify (_ : nat) (_ : unit) (w : nat) : option error * nat :=
  (Some Sim.refused, w).

#[export] Instance down : Environment :=
  {| env := nat; context := unit;
     DriverWithContext := nat; SessionWithContext := nat;
     ResultWithContext := nat;
     NewDriverWithContext := new_driver;
     DriverNewSession := fun h _ _ w => (h, w);
     DriverVerifyConnectivity := verify;
     DriverClose := fun _ _ w => (None, w);
     SessionRun := run;
     SessionClose := fun _ _ w => (None, w);
     debug_Stack := fun _ => "goroutine 1 [running]:"%string |}.

Definition guardian : Driver (E := down) :=
  @Build_Driver down (Some 0) "neo4j://localhost" "neo4j" "letmein!".

Definition start : state (E := down) := @Build_state down guardian 1 [].

Definition hook_ok : ResultsHookFn (E := down) :=
  fun _ w => (Returned None, w).

End Down.

(** * Properties *)

Example sim_run_ok :
  nonblockExecuteQuery 1 tt Sim.simple_query Sim.no_params Sim.hook_ok
    (Sim.start Sim.quiet)
  = Some (Returned None,
          {| this := Sim.guardian 0; world := Sim.quiet;
             log := [CallNewSession 0 write_mode 0;
                     CallRun 0 Sim.simple_query Sim.no_params (inl 0);
                     CallHook 0 (Returned None);
                     CallSessionClose 0] |}).
Proof. reflexivity. Qed.

(** ** The test on the error text *)

Lemma prefix_split (p s : string) :
  prefix p s = true <-> exists rest, s = (p ++ rest)%string.
Proof.
  revert s. induction p as [|c p IH]; intros s; simpl.
  - split; [intros _; now exists s | now destruct s].
  - destruct s as [|c' s].
    + split; [discriminate | intros [rest H]; discriminate].
    + simpl. destruct (ascii_dec c c') as [->|Hc].
      * rewrite IH. split; intros [rest H]; exists rest.
        -- now rewrite H.
        -- now injection H.
      * split; [discriminate|].
        intros [rest H]. injection H as Hcc _. congruence.
Qed.

Lemma needs_reconnect_spec (err : error) :
  needs_reconnect err = true <-> connectivity_class err.
Proof.
  unfold needs_reconnect, connectivity_class, closed_driver_message.
  rewrite orb_true_iff, String.eqb_eq, prefix_split. tauto.
Qed.

Lemma needs_reconnect_false (err : error) :
  needs_reconnect err = false <-> ~ connectivity_class err.
Proof.
  rewrite <- needs_reconnect_spec. destruct (needs_reconnect err); split;
    congruence.
Qed.

Section Properties.
Context {E : Environment}.
Implicit Types (s : state) (ctx : context) (h : DriverWithContext)
  (session : SessionWithContext) (err : error) (evs : list event).

Lemma after_after s w evs w' evs' :
  after (after s w evs) w' evs' = after s w' (evs ++ evs').
Proof. unfold after; simpl. now rewrite <- app_assoc. Qed.

(** ** The primitives, as rewriting rules *)

Lemma emit_eq (e : event) s :
  emit e s = Some (Returned tt, after s (world s) [e]).
Proof. reflexivity. Qed.

Lemma CloseSession_eq ctx session s :
  CloseSession ctx session s
  = Some (Returned tt,
          after s (snd (SessionClose session ctx (world s)))
            [CallSessionClose session]).
Proof.
  unfold CloseSession, call; cbn.
  now destruct (SessionClose session ctx (world s)).
Qed.

Lemma nonblockClose_some ctx s h :
  driver (this s) = Some h ->
  nonblockClose ctx s
  = Some (Returned tt,
          after s (snd (DriverClose h ctx (world s))) [CallDriverClose h]).
Proof.
  intros Hd. unfold nonblockClose, call; cbn. rewrite Hd; cbn.
  now destruct (DriverClose h ctx (world s)).
Qed.

Lemma nonblockClose_nil ctx s :
  driver (this s) = None ->
  nonblockClose ctx s = Some (Returned tt, s).
Proof. intros Hd. unfold nonblockClose; cbn. now rewrite Hd. Qed.

Lemma NewDriver_eq (settings : Settings) s :
  NewDriver settings s
  = let target := ConnectionString settings in
    let auth := BasicAuth (User settings) (Password settings) "" in
    let (r, w) := NewDriverWithContext target auth (world s) in
    Some (Returned
            match r with
            | inl h => inl {| driver := Some h; dbURI := target;
                              user := User settings;
                              password := Password settings |}
            | inr err => inr err
            end,
          after s w [CallNewDriver target auth r]).
Proof.
  unfold NewDriver, call; cbn.
  destruct (NewDriverWithContext _ _ (world s)) as [[h|err] w]; reflexivity.
Qed.

(** ** [reconnect], case by case *)

Lemma reconnect_nil ctx s :
  driver (this s) = None ->
  reconnect ctx s
  = Some (Panicked nil_dereference,
          after s (world s) [RecoveryLock; RecoveryUnlock]).
Proof.
  intros Hd. unfold reconnect, defer, after; cbn. rewrite Hd; cbn.
  now rewrite <- app_assoc.
Qed.

Lemma reconnect_verified ctx s h w1 :
  driver (this s) = Some h ->
  DriverVerifyConnectivity h ctx (world s) = (None, w1) ->
  reconnect ctx s
  = Some (Returned None,
          after s w1 [RecoveryLock; CallVerifyConnectivity h None;
                      RecoveryUnlock]).
Proof.
  intros Hd Hv. unfold reconnect, defer, call, after; cbn.
  rewrite Hd; cbn. rewrite Hv; cbn. now rewrite <- !app_assoc.
Qed.

Lemma reconnect_not_rebuilt ctx s h e0 w1 err w2 :
  driver (this s) = Some h ->
  DriverVerifyConnectivity h ctx (world s) = (Some e0, w1) ->
  NewDriverWithContext (dbURI (this s))
    (BasicAuth (user (this s)) (password (this s)) "") w1 = (inr err, w2) ->
  reconnect ctx s
  = Some (Returned (Some err),
          after s w2
            [RecoveryLock; CallVerifyConnectivity h (Some e0);
             CallNewDriver (dbURI (this s))
               (BasicAuth (user (this s)) (password (this s)) "") (inr err);
             RecoveryUnlock]).
Proof.
  intros Hd Hv Hn. unfold reconnect, defer, NewDriver, call, after; cbn.
  rewrite Hd; cbn. rewrite Hv; cbn. rewrite Hn; cbn.
  now rewrite <- !app_assoc.
Qed.

Lemma reconnect_rebuilt ctx s h e0 w1 h' w2 ce w3 :
  driver (this s) = Some h ->
  DriverVerifyConnectivity h ctx (world s) = (Some e0, w1) ->
  NewDriverWithContext (dbURI (this s))
    (BasicAuth (user (this s)) (password (this s)) "") w1 = (inl h', w2) ->
  DriverClose h ctx w2 = (ce, w3) ->
  reconnect ctx s
  = Some (Returned None,
          {| this := with_handle (this s) h'; world := w3;
             log := log s ++
               [RecoveryLock; CallVerifyConnectivity h (Some e0);
                CallNewDriver (dbURI (this s))
                  (BasicAuth (user (this s)) (password (this s)) "") (inl h');
                CallDriverClose h; RecoveryUnlock] |}).
Proof.
  intros Hd Hv Hn Hc.
  unfold reconnect, defer, NewDriver, nonblockClose, call, with_handle; cbn.
  rewrite Hd; cbn. rewrite Hv; cbn. rewrite Hn; cbn. rewrite Hd; cbn.
  rewrite Hc; cbn. now rewrite <- !app_assoc.
Qed.

(** All of [reconnect] on a Guardian that holds a handle. *)
Lemma reconnect_cases ctx s h :
  driver (this s) = Some h ->
  let verified := DriverVerifyConnectivity h ctx (world s) in
  let target := dbURI (this s) in
  let auth := BasicAuth (user (this s)) (password (this s)) "" in
  let built := NewDriverWithContext target auth (snd verified) in
  reconnect ctx s
  = match fst verified with
    | None =>
        Some (Returned None,
              after s (snd verified)
                [RecoveryLock; CallVerifyConnectivity h None; RecoveryUnlock])
    | Some e0 =>
        match fst built with
        | inr err =>
            Some (Returned (Some err),
                  after s (snd built)
                    [RecoveryLock; CallVerifyConnectivity h (Some e0);
                     CallNewDriver target auth (inr err); RecoveryUnlock])
        | inl h' =>
            Some (Returned None,
                  {| this := with_handle (this s) h';
                     world := snd (DriverClose h ctx (snd built));
                     log := log s ++
                       [RecoveryLock; CallVerifyConnectivity h (Some e0);
                        CallNewDriver target auth (inl h');
                        CallDriverClose h; RecoveryUnlock] |})
        end
    end.
Proof.
  intros Hd verified target auth built.
  destruct verified as [[e0|] w1] eqn:Hv; cbn [fst snd] in *.
  - destruct built as [[h'|err] w2] eqn:Hn; cbn [fst snd].
    + destruct (DriverClose h ctx w2) as [ce w3] eqn:Hc.
      exact (reconnect_rebuilt ctx s h e0 w1 h' w2 ce w3 Hd Hv Hn Hc).
    + exact (reconnect_not_rebuilt ctx s h e0 w1 err w2 Hd Hv Hn).
  - exact (reconnect_verified ctx s h w1 Hd Hv).
Qed.

(** [reconnect] always comes back; it never panics on a Guardian that holds
    a handle, leaves it holding one, and opens no session. *)
Lemma reconnect_returns ctx s h :
  driver (this s) = Some h ->
  exists verdict s' evs,
    reconnect ctx s = Some (Returned verdict, s')
    /\ log s' = log s ++ RecoveryLock :: evs
    /\ existsb is_new_session evs = false
    /\ exists h', driver (this s') = Some h'.
Proof.
  intros Hd. rewrite (reconnect_cases ctx s h Hd).
  destruct (fst (DriverVerifyConnectivity h ctx (world s))) as [e0|].
  - destruct (fst (NewDriverWithContext _ _ _)) as [h'|err].
    + do 3 eexists. split; [reflexivity|]. cbn.
      split; [reflexivity|]. split; [reflexivity|]. now exists h'.
    + do 3 eexists. split; [reflexivity|]. cbn.
      split; [reflexivity|]. split; [reflexivity|]. now exists h.
  - do 3 eexists. split; [reflexivity|]. cbn.
    split; [reflexivity|]. split; [reflexivity|]. now exists h.
Qed.

(** ** [executeHook] and [nonblockExecuteQuery], case by case *)

Lemma executeHook_eq (onResults : ResultsHookFn) result s o w :
  onResults result (world s) = (o, w) ->
  executeHook onResults result s
  = Some (Returned (hook_verdict o w), after s w [CallHook result o]).
Proof.
  intros H. unfold executeHook, defer_recover, call_hook; cbn. rewrite H.
  destruct o as [[e|]|[r|]]; reflexivity.
Qed.

Lemma nonblock_nil depth ctx query params onResults s :
  driver (this s) = None ->
  nonblockExecuteQuery (S depth) ctx query params onResults s
  = Some (Panicked nil_dereference, s).
Proof. intros Hd. cbn. now rewrite Hd. Qed.

Lemma nonblock_unfold depth ctx query params onResults s h session w1 r w2 :
  driver (this s) = Some h ->
  DriverNewSession h ctx write_mode (world s) = (session, w1) ->
  SessionRun session ctx query params w1 = (r, w2) ->
  nonblockExecuteQuery (S depth) ctx query params onResults s
  = defer (CloseSession ctx session)
      (after_run depth ctx query params onResults r)
      (after s w2 [CallNewSession h write_mode session;
                   CallRun session query params r]).
Proof.
  intros Hd Hs Hr. cbn. rewrite Hd; cbn. unfold call at 1.
  unfold write_mode in Hs. rewrite Hs; cbn.
  unfold defer at 1. unfold call at 1; cbn. rewrite Hr; cbn.
  unfold defer, after_run, after; cbn. rewrite <- !app_assoc; cbn.
  destruct r as [result|err]; reflexivity.
Qed.

Lemma nonblock_hook depth ctx query params onResults s h session w1 result
    w2 o w3 ce w4 :
  driver (this s) = Some h ->
  DriverNewSession h ctx write_mode (world s) = (session, w1) ->
  SessionRun session ctx query params w1 = (inl result, w2) ->
  onResults result w2 = (o, w3) ->
  SessionClose session ctx w3 = (ce, w4) ->
  nonblockExecuteQuery (S depth) ctx query params onResults s
  = Some (Returned (hook_verdict o w3),
          after s w4 [CallNewSession h write_mode session;
                      CallRun session query params (inl result);
                      CallHook result o;
                      CallSessionClose session]).
Proof.
  intros Hd Hs Hr Hh Hc.
  rewrite (nonblock_unfold _ _ _ _ _ _ _ _ _ _ _ Hd Hs Hr).
  unfold defer, after_run; cbn -[CloseSession executeHook].
  rewrite (executeHook_eq onResults result _ o w3) by exact Hh.
  destruct (hook_verdict o w3); rewrite CloseSession_eq; cbn; rewrite Hc;
    cbn; now rewrite !after_after.
Qed.

Lemma nonblock_plain_error depth ctx query params onResults s h session w1
    err w2 ce w3 :
  driver (this s) = Some h ->
  DriverNewSession h ctx write_mode (world s) = (session, w1) ->
  SessionRun session ctx query params w1 = (inr err, w2) ->
  needs_reconnect err = false ->
  SessionClose session ctx w2 = (ce, w3) ->
  nonblockExecuteQuery (S depth) ctx query params onResults s
  = Some (Returned (Some err),
          after s w3 [CallNewSession h write_mode session;
                      CallRun session query params (inr err);
                      CallSessionClose session]).
Proof.
  intros Hd Hs Hr Hn Hc.
  rewrite (nonblock_unfold _ _ _ _ _ _ _ _ _ _ _ Hd Hs Hr).
  unfold defer, after_run; rewrite Hn; cbn -[CloseSession].
  rewrite CloseSession_eq; cbn. rewrite Hc; cbn.
  now rewrite !after_after.
Qed.

Lemma ExecuteQuery_eq depth ctx query params onResults s :
  ExecuteQuery depth ctx query params onResults s
  = defer (emit AccessRUnlock)
      (nonblockExecuteQuery depth ctx query params onResults)
      (after s (world s) [AccessRLock]).
Proof. reflexivity. Qed.

Lemma defer_emit_eq {A} (e : event) (body : M A) s o s' :
  body s = Some (o, s') ->
  defer (emit e) body s = Some (o, after s' (world s') [e]).
Proof. intros H. unfold defer. now rewrite H. Qed.

(** ** [reconnect] and [Close] *)

(** C4: when [VerifyConnectivity] on the current handle succeeds on entry,
    [reconnect] returns nil at once: the only call it makes is that
    verification, no handle is constructed, and the Guardian, handle
    reference included, is as it was. *)
Theorem reconnect_double_check ctx s h w1 :
  driver (this s) = Some h ->
  DriverVerifyConnectivity h ctx (world s) = (None, w1) ->
  exists s',
    reconnect ctx s = Some (Returned None, s')
    /\ this s' = this s
    /\ world s' = w1
    /\ log s' = log s ++ [RecoveryLock; CallVerifyConnectivity h None;
                          RecoveryUnlock]
    /\ count_events is_construction
         [RecoveryLock; CallVerifyConnectivity h None; RecoveryUnlock] = 0.
Proof.
  intros Hd Hv. eexists. split; [exact (reconnect_verified ctx s h w1 Hd Hv)|].
  repeat split.
Qed.

(** C5: when constructing the replacement handle fails, [reconnect] returns
    the construction error; the Guardian still holds the old handle, and
    the old handle has not been closed: no [Close] was called on any handle,
    and the outside world is as the failed construction left it. *)
Theorem reconnect_construction_failure ctx s h e0 w1 err w2 :
  driver (this s) = Some h ->
  DriverVerifyConnectivity h ctx (world s) = (Some e0, w1) ->
  NewDriverWithContext (dbURI (this s))
    (BasicAuth (user (this s)) (password (this s)) "") w1 = (inr err, w2) ->
  exists s' evs,
    reconnect ctx s = Some (Returned (Some err), s')
    /\ this s' = this s
    /\ driver (this s') = Some h
    /\ world s' = w2
    /\ log s' = log s ++ evs
    /\ existsb is_driver_close evs = false.
Proof.
  intros Hd Hv Hn. eexists. eexists.
  split; [exact (reconnect_not_rebuilt ctx s h e0 w1 err w2 Hd Hv Hn)|].
  cbn. repeat split. exact Hd.
Qed.

(** C10: [Close] closes the handle the Guardian holds, and does nothing to
    the outside world when it holds none; either way the Guardian itself is
    untouched: the handle reference is not reset to nil and the endpoint,
    user and password stay.  After closing handle [h], a later
    [ExecuteQuery] therefore goes to [h]: it takes the read lock, opens a
    session on [h] and runs the query on it, instead of panicking on a nil
    handle. *)
Theorem Close_keeps_the_handle ctx s :
  exists s',
    Close ctx s = Some (Returned tt, s')
    /\ this s' = this s
    /\ match driver (this s) with
       | None =>
           world s' = world s /\ log s' = log s ++ [AccessLock; AccessUnlock]
       | Some h =>
           world s' = snd (DriverClose h ctx (world s))
           /\ log s' = log s ++ [AccessLock; CallDriverClose h; AccessUnlock]
           /\ driver (this s') = Some h
           /\ forall depth ctx' query params onResults,
               let opened := DriverNewSession h ctx' write_mode (world s') in
               let ran :=
                 SessionRun (fst opened) ctx' query params (snd opened) in
               ExecuteQuery (S depth) ctx' query params onResults s'
               = defer (emit AccessRUnlock)
                   (defer (CloseSession ctx' (fst opened))
                      (after_run depth ctx' query params onResults (fst ran)))
                   (after s' (snd ran)
                      [AccessRLock;
                       CallNewSession h write_mode (fst opened);
                       CallRun (fst opened) query params (fst ran)])
       end.
Proof.
  destruct (driver (this s)) as [h|] eqn:Hd.
  - eexists. split.
    + unfold Close; cbn -[nonblockClose]. unfold defer.
      rewrite (nonblockClose_some ctx _ h) by exact Hd. cbn. reflexivity.
    + split; [reflexivity|]. split; [reflexivity|].
      split; [cbn; now rewrite <- !app_assoc|]. split; [exact Hd|].
      intros depth ctx' query params onResults opened ran.
      rewrite ExecuteQuery_eq. unfold defer at 1 3.
      rewrite (nonblock_unfold depth ctx' query params onResults _ h
                 (fst opened) (snd opened) (fst ran) (snd ran)).
      * now rewrite after_after.
      * exact Hd.
      * subst opened. cbn. now destruct (DriverNewSession h ctx' write_mode _).
      * subst ran. now destruct (SessionRun _ _ _ _ _).
  - eexists. split.
    + unfold Close; cbn -[nonblockClose]. unfold defer.
      rewrite nonblockClose_nil by exact Hd. cbn. reflexivity.
    + cbn. split; [reflexivity|]. split; [reflexivity|].
      now rewrite <- !app_assoc.
Qed.

(** ** The result hook *)

(** C7, as the code has it: when [Run] succeeds, the hook is called on the
    cursor while the session is still open, and the deferred
    [CloseSession] runs only once the hook has ended, however it ended.
    The calls are, in order: [NewSession], [Run], the hook, [Close] of the
    session. *)
Theorem session_released_after_hook depth ctx query params
    (onResults : ResultsHookFn) s h session w1 result w2 o w3 ce w4 :
  driver (this s) = Some h ->
  DriverNewSession h ctx write_mode (world s) = (session, w1) ->
  SessionRun session ctx query params w1 = (inl result, w2) ->
  onResults result w2 = (o, w3) ->
  SessionClose session ctx w3 = (ce, w4) ->
  exists verdict s',
    nonblockExecuteQuery (S depth) ctx query params onResults s
    = Some (Returned verdict, s')
    /\ world s' = w4
    /\ log s' = log s ++ [CallNewSession h write_mode session;
                          CallRun session query params (inl result);
                          CallHook result o;
                          CallSessionClose session]
    /\ occurs_before is_hook is_session_close
         [CallNewSession h write_mode session;
          CallRun session query params (inl result);
          CallHook result o;
          CallSessionClose session] = true
    /\ occurs_before is_session_close is_hook
         [CallNewSession h write_mode session;
          CallRun session query params (inl result);
          CallHook result o;
          CallSessionClose session] = false.
Proof.
  intros Hd Hs Hr Hh Hc. eexists. eexists. split.
  - exact (nonblock_hook depth ctx query params onResults s h session w1
             result w2 o w3 ce w4 Hd Hs Hr Hh Hc).
  - repeat split.
Qed.

(** What [ExecuteQuery] makes of each way the hook can end, when [Run]
    succeeds.  An error the hook returns is returned by [ExecuteQuery]; a
    panic with a non-nil value is recovered and returned as an error whose
    text holds the panic value (as [%v] prints it) and the stack trace
    taken at the recovery.  The guard [r != nil] lets a panic with a nil
    value through: it is recovered, but [recover()] yields nil and nothing
    is reported.  In every case the calls made are those of a single
    attempt: no reconnect, no second session. *)
Theorem hook_failure_is_surfaced depth ctx query params
    (onResults : ResultsHookFn) s h session w1 result w2 o w3 ce w4 :
  driver (this s) = Some h ->
  DriverNewSession h ctx write_mode (world s) = (session, w1) ->
  SessionRun session ctx query params w1 = (inl result, w2) ->
  onResults result w2 = (o, w3) ->
  SessionClose session ctx w3 = (ce, w4) ->
  exists verdict s' evs,
    ExecuteQuery (S depth) ctx query params onResults s
    = Some (Returned verdict, s')
    /\ match o with
       | Returned failure => verdict = failure
       | Panicked (Some r) =>
           verdict
           = Some (errorString
                     ("[neo4j onResults] recovered from panic: " ++ fmt_v r
                        ++ newline ++ newline ++ debug_Stack w3)%string)
       | Panicked None => verdict = None
       end
    /\ this s' = this s
    /\ log s' = log s ++ evs
    /\ evs = [AccessRLock;
              CallNewSession h write_mode session;
              CallRun session query params (inl result);
              CallHook result o;
              CallSessionClose session;
              AccessRUnlock]
    /\ count_events is_reconnect evs = 0
    /\ count_events is_construction evs = 0
    /\ count_events is_new_session evs = 1.
Proof.
  intros Hd Hs Hr Hh Hc. eexists. eexists. eexists. split.
  - rewrite ExecuteQuery_eq.
    apply defer_emit_eq.
    exact (nonblock_hook depth ctx query params onResults
             (after s (world s) [AccessRLock]) h session w1
             result w2 o w3 ce w4 Hd Hs Hr Hh Hc).
  - split; [destruct o as [failure|[r|]]; reflexivity|].
    split; [reflexivity|].
    split; [cbn; rewrite <- !app_assoc; reflexivity|].
    repeat split.
Qed.

(** ** [Run] errors *)

(** C1: let the first [Run] of an attempt return [err].  When the text of
    [err] is neither the closed-handle message nor begins with
    [ConnectivityError], the attempt returns [err] itself and makes no
    other call than closing its session: no reconnect.  When it is one of
    the two, [reconnect] is called next; if [reconnect] returns nil the
    whole of [nonblockExecuteQuery] runs again (with the first session
    still to be closed), and if [reconnect] returns an error that error is
    returned after closing the session. *)
Theorem run_error_classification depth ctx query params
    (onResults : ResultsHookFn) s h session w1 err w2 :
  driver (this s) = Some h ->
  DriverNewSession h ctx write_mode (world s) = (session, w1) ->
  SessionRun session ctx query params w1 = (inr err, w2) ->
  let s2 := after s w2 [CallNewSession h write_mode session;
                        CallRun session query params (inr err)] in
  (~ connectivity_class err ->
     nonblockExecuteQuery (S depth) ctx query params onResults s
     = Some (Returned (Some err),
             after s2 (snd (SessionClose session ctx w2))
               [CallSessionClose session]))
  /\ (connectivity_class err ->
      exists verdict s3 evs,
        reconnect ctx s2 = Some (Returned verdict, s3)
        /\ log s3 = log s2 ++ RecoveryLock :: evs
        /\ nonblockExecuteQuery (S depth) ctx query params onResults s
           = match verdict with
             | None =>
                 defer (CloseSession ctx session)
                   (nonblockExecuteQuery depth ctx query params onResults) s3
             | Some e =>
                 Some (Returned (Some e),
                       after s3 (snd (SessionClose session ctx (world s3)))
                         [CallSessionClose session])
             end).
Proof.
  intros Hd Hs Hr s2. split.
  - intros Hn. apply needs_reconnect_false in Hn.
    destruct (SessionClose session ctx w2) as [ce w3] eqn:Hc.
    rewrite (nonblock_plain_error depth ctx query params onResults s h
               session w1 err w2 ce w3 Hd Hs Hr Hn Hc).
    subst s2. now rewrite after_after.
  - intros Hn. apply needs_reconnect_spec in Hn.
    destruct (reconnect_returns ctx s2 h Hd)
      as (verdict & s3 & evs & Hrec & Hlog & _ & _).
    exists verdict, s3, evs. split; [exact Hrec|]. split; [exact Hlog|].
    rewrite (nonblock_unfold _ _ _ _ _ _ _ _ _ _ _ Hd Hs Hr).
    fold s2. unfold after_run. rewrite Hn.
    unfold defer; cbn -[reconnect nonblockExecuteQuery CloseSession].
    rewrite Hrec. destruct verdict as [e|]; [|reflexivity].
    cbn -[CloseSession]. now rewrite CloseSession_eq.
Qed.

(** ** Recovery *)

(** C2, as the code has it: when the first [Run] returns a
    connectivity-class error, [reconnect] returns nil, and the second [Run]
    and the hook succeed, [ExecuteQuery] returns nil after exactly one call
    of [reconnect] and exactly two sessions.  That one [reconnect]
    constructs exactly one handle when [VerifyConnectivity] on the current
    handle fails, and none when it succeeds. *)
Theorem retry_after_one_reconnect depth ctx query params
    (onResults : ResultsHookFn) s h session1 w1 err w2 s3 h' session2 w4
    result w5 w6 :
  driver (this s) = Some h ->
  DriverNewSession h ctx write_mode (world s) = (session1, w1) ->
  SessionRun session1 ctx query params w1 = (inr err, w2) ->
  connectivity_class err ->
  reconnect ctx
    (after s w2 [AccessRLock; CallNewSession h write_mode session1;
                 CallRun session1 query params (inr err)])
  = Some (Returned None, s3) ->
  driver (this s3) = Some h' ->
  DriverNewSession h' ctx write_mode (world s3) = (session2, w4) ->
  SessionRun session2 ctx query params w4 = (inl result, w5) ->
  onResults result w5 = (Returned None, w6) ->
  exists s' evs,
    ExecuteQuery (S (S depth)) ctx query params onResults s
    = Some (Returned None, s')
    /\ log s' = log s ++ evs
    /\ count_events is_reconnect evs = 1
    /\ count_events is_new_session evs = 2
    /\ count_events is_construction evs
       = match fst (DriverVerifyConnectivity h ctx w2) with
         | None => 0
         | Some _ => 1
         end.
Proof.
  intros Hd Hs Hr Hclass Hrec Hd' Hs' Hr' Hh.
  apply needs_reconnect_spec in Hclass.
  destruct (SessionClose session2 ctx w6) as [ce w7] eqn:Hc.
  pose proof (nonblock_hook depth ctx query params onResults s3 h' session2
                w4 result w5 (Returned None) w6 ce w7 Hd' Hs' Hr' Hh Hc)
    as Hretry.
  assert (Hrun :
    ExecuteQuery (S (S depth)) ctx query params onResults s
    = Some (Returned None,
            after s3 (snd (SessionClose session1 ctx w7))
              [CallNewSession h' write_mode session2;
               CallRun session2 query params (inl result);
               CallHook result (Returned None);
               CallSessionClose session2;
               CallSessionClose session1;
               AccessRUnlock])).
  { rewrite ExecuteQuery_eq. unfold defer at 1.
    rewrite (nonblock_unfold (S depth) ctx query params onResults
               (after s (world s) [AccessRLock]) h session1 w1 (inr err) w2
               Hd Hs Hr).
    rewrite after_after. unfold after_run. rewrite Hclass.
    unfold defer; cbn -[reconnect nonblockExecuteQuery CloseSession emit].
    cbn [app] in *. rewrite Hrec. rewrite Hretry.
    rewrite CloseSession_eq. rewrite emit_eq. now rewrite !after_after. }
  rewrite (reconnect_cases ctx
             (after s w2 [AccessRLock; CallNewSession h write_mode session1;
                          CallRun session1 query params (inr err)]) h Hd)
    in Hrec.
  cbn [world after] in Hrec.
  destruct (fst (DriverVerifyConnectivity h ctx w2)) as [e0|].
  - destruct (fst (NewDriverWithContext _ _ _)) as [h1|e1];
      [|discriminate].
    injection Hrec as <-. do 2 eexists. split; [exact Hrun|].
    split; [cbn; rewrite <- !app_assoc; reflexivity|]. repeat split.
  - injection Hrec as <-. do 2 eexists. split; [exact Hrun|].
    split; [cbn; rewrite <- !app_assoc; reflexivity|]. repeat split.
Qed.

(** C8: a Guardian is built from parameters the library accepts and then
    closed.  The library behaves as it does on a closed handle: [Run] on a
    session of that handle fails with the closed-handle message, and
    [VerifyConnectivity] fails.  If the rebuilt handle works (it is built,
    its [Run] succeeds) and the hook succeeds, then [ExecuteQuery] returns
    nil, having reconnected once and retried once; the Guardian ends up
    holding the rebuilt handle. *)
Theorem query_after_Close_recovers (settings : Settings) depth ctx query
    params (onResults : ResultsHookFn) s0 h0 w1 session0 w3 err w4 e0 w5 h1
    w6 session1 w8 result w9 w10 :
  let target := ConnectionString settings in
  let auth := BasicAuth (User settings) (Password settings) "" in
  NewDriverWithContext target auth (world s0) = (inl h0, w1) ->
  DriverNewSession h0 ctx write_mode (snd (DriverClose h0 ctx w1))
  = (session0, w3) ->
  SessionRun session0 ctx query params w3 = (inr err, w4) ->
  Error err = "Trying to create session on closed driver"%string ->
  DriverVerifyConnectivity h0 ctx w4 = (Some e0, w5) ->
  NewDriverWithContext target auth w5 = (inl h1, w6) ->
  DriverNewSession h1 ctx write_mode (snd (DriverClose h0 ctx w6))
  = (session1, w8) ->
  SessionRun session1 ctx query params w8 = (inl result, w9) ->
  onResults result w9 = (Returned None, w10) ->
  exists s',
    close_then_query settings (S (S depth)) ctx query params onResults s0
    = Some (Returned None, s')
    /\ driver (this s') = Some h1
    /\ log s' = log s0 ++
         [CallNewDriver target auth (inl h0);
          AccessLock; CallDriverClose h0; AccessUnlock;
          AccessRLock;
          CallNewSession h0 write_mode session0;
          CallRun session0 query params (inr err);
          RecoveryLock;
          CallVerifyConnectivity h0 (Some e0);
          CallNewDriver target auth (inl h1);
          CallDriverClose h0;
          RecoveryUnlock;
          CallNewSession h1 write_mode session1;
          CallRun session1 query params (inl result);
          CallHook result (Returned None);
          CallSessionClose session1;
          CallSessionClose session0;
          AccessRUnlock].
Proof.
  intros target auth Hn0 Hs0 Hr0 Hmsg Hv Hn1 Hs1 Hr1 Hh.
  assert (Hclass : needs_reconnect err = true).
  { apply needs_reconnect_spec. now left. }
  set (d0 := {| driver := Some h0; dbURI := target; user := User settings;
                password := Password settings |}).
  set (sa := {| this := d0; world := snd (DriverClose h0 ctx w1);
                log := log s0 ++ [CallNewDriver target auth (inl h0);
                                  AccessLock; CallDriverClose h0;
                                  AccessUnlock; AccessRLock] |}).
  assert (Hfirst :
    close_then_query settings (S (S depth)) ctx query params onResults s0
    = defer (emit AccessRUnlock)
        (nonblockExecuteQuery (S (S depth)) ctx query params onResults) sa).
  { unfold close_then_query, connectToNeo.
    cbn -[NewDriver Close ExecuteQuery].
    rewrite NewDriver_eq. cbv zeta. fold target auth. rewrite Hn0.
    cbn -[Close ExecuteQuery]. unfold Close.
    cbn -[nonblockClose ExecuteQuery defer]. unfold defer at 1.
    rewrite (nonblockClose_some ctx _ h0) by reflexivity.
    cbn -[ExecuteQuery]. rewrite ExecuteQuery_eq. unfold after, sa, d0; cbn.
    now rewrite <- !app_assoc. }
  destruct (DriverClose h0 ctx w6) as [ce1 w7] eqn:Hc1. cbn [snd] in Hs1.
  set (d1 := with_handle d0 h1).
  set (sb := {| this := d1; world := w7;
                log := (log sa ++ [CallNewSession h0 write_mode session0;
                                   CallRun session0 query params (inr err)])
                       ++ [RecoveryLock;
                           CallVerifyConnectivity h0 (Some e0);
                           CallNewDriver target auth (inl h1);
                           CallDriverClose h0; RecoveryUnlock] |}).
  assert (Hrec :
    reconnect ctx (after sa w4 [CallNewSession h0 write_mode session0;
                                CallRun session0 query params (inr err)])
    = Some (Returned None, sb)).
  { exact (reconnect_rebuilt ctx
             (after sa w4 [CallNewSession h0 write_mode session0;
                           CallRun session0 query params (inr err)])
             h0 e0 w5 h1 w6 ce1 w7 eq_refl Hv Hn1 Hc1). }
  destruct (SessionClose session1 ctx w10) as [ce2 w11] eqn:Hc2.
  pose proof (nonblock_hook depth ctx query params onResults sb h1 session1
                w8 result w9 (Returned None) w10 ce2 w11 eq_refl Hs1 Hr1 Hh
                Hc2) as Hretry.
  eexists. split.
  - rewrite Hfirst. unfold defer at 1.
    rewrite (nonblock_unfold (S depth) ctx query params onResults sa h0
               session0 w3 (inr err) w4 eq_refl Hs0 Hr0).
    unfold after_run. rewrite Hclass.
    unfold defer; cbn -[reconnect nonblockExecuteQuery CloseSession emit].
    rewrite Hrec. rewrite Hretry. rewrite CloseSession_eq. rewrite emit_eq.
    rewrite !after_after. reflexivity.
  - split; [reflexivity|]. cbn. now rewrite <- !app_assoc.
Qed.

(** ** Sessions *)

Lemma all_sessions_closed_app evs1 evs2 :
  all_sessions_closed evs1 -> all_sessions_closed evs2 ->
  all_sessions_closed (evs1 ++ evs2).
Proof.
  intros H1 H2. induction evs1 as [|e evs1 IH]; [exact H2|].
  destruct e; simpl in *; auto.
  destruct H1 as [Hin H1]. split; [apply in_or_app; now left | auto].
Qed.

Lemma no_new_session_closed evs :
  existsb is_new_session evs = false -> all_sessions_closed evs.
Proof.
  induction evs as [|e evs IH]; [easy|].
  destruct e; simpl; intros H; try discriminate; auto.
Qed.

Lemma session_bracket_closed h cfg session evs :
  all_sessions_closed evs ->
  all_sessions_closed
    (CallNewSession h cfg session :: evs ++ [CallSessionClose session]).
Proof.
  intros H. simpl. split.
  - apply in_or_app. right. now left.
  - apply all_sessions_closed_app; [exact H | exact I].
Qed.

(** C6: whenever a call of [nonblockExecuteQuery] comes back, by a return
    or by a panic, every session it obtained, its own and those of the
    retries nested in it, has been closed by then: in the calls it made,
    each [NewSession] is followed by the [Close] of the session it gave. *)
Theorem every_session_is_closed depth ctx query params
    (onResults : ResultsHookFn) s o s' :
  nonblockExecuteQuery depth ctx query params onResults s = Some (o, s') ->
  exists evs, log s' = log s ++ evs /\ all_sessions_closed evs.
Proof.
  revert s o s'. induction depth as [|depth IH]; intros s o s' H;
    [discriminate|].
  destruct (driver (this s)) as [h|] eqn:Hd.
  2:{ rewrite nonblock_nil in H by exact Hd. injection H as <- <-.
      exists []. split; [now rewrite app_nil_r | exact I]. }
  destruct (DriverNewSession h ctx write_mode (world s)) as [session w1]
    eqn:Hs.
  destruct (SessionRun session ctx query params w1) as [r w2] eqn:Hr.
  rewrite (nonblock_unfold _ _ _ _ _ _ _ _ _ _ _ Hd Hs Hr) in H.
  set (s2 := after s w2 [CallNewSession h write_mode session;
                         CallRun session query params r]) in *.
  unfold defer in H.
  destruct (after_run depth ctx query params onResults r s2)
    as [[ob sb]|] eqn:Hb; [|discriminate].
  rewrite CloseSession_eq in H. injection H as <- <-.
  assert (Hmid : exists mid,
             log sb = log s2 ++ mid /\ all_sessions_closed mid).
  { unfold after_run in Hb. destruct r as [result|err].
    - destruct (onResults result (world s2)) as [ho w3] eqn:Hh.
      cbn -[executeHook] in Hb. rewrite (executeHook_eq _ _ _ _ _ Hh) in Hb.
      exists [CallHook result ho].
      destruct (hook_verdict ho w3); injection Hb as <- <-;
        (split; [reflexivity | exact I]).
    - destruct (needs_reconnect err).
      + destruct (reconnect_returns ctx s2 h Hd)
          as (verdict & s3 & revs & Hrec & Hlog & Hno & _).
        cbn -[reconnect nonblockExecuteQuery] in Hb. rewrite Hrec in Hb.
        destruct verdict as [e|].
        * injection Hb as <- <-. exists (RecoveryLock :: revs).
          split; [exact Hlog | now apply no_new_session_closed].
        * apply IH in Hb as (ievs & Hl & Hasc).
          exists ((RecoveryLock :: revs) ++ ievs). split.
          -- rewrite Hl, Hlog. now rewrite <- app_assoc.
          -- apply all_sessions_closed_app;
               [now apply no_new_session_closed | exact Hasc].
      + injection Hb as <- <-. exists []. split;
          [now rewrite app_nil_r | exact I]. }
  destruct Hmid as (mid & Hmid & Hasc).
  exists (CallNewSession h write_mode session
            :: (CallRun session query params r :: mid)
            ++ [CallSessionClose session]).
  split.
  - cbn. rewrite Hmid. subst s2. cbn. now rewrite <- !app_assoc.
  - apply session_bracket_closed. exact Hasc.
Qed.

End Properties.

(** * Runs on the scripted world *)

Lemma unreachable_is_connectivity : connectivity_class Sim.unreachable.
Proof. apply needs_reconnect_spec. reflexivity. Qed.

Lemma syntax_error_is_not_connectivity : ~ connectivity_class Sim.syntax_error.
Proof. apply needs_reconnect_false. reflexivity. Qed.

(** ** C1 *)

(** A [Run] error of the connectivity class whose reconnect fails is not
    retried: the network is down for [VerifyConnectivity] and for the
    construction too, the construction error is returned, and the call has
    opened a single session. *)
Lemma failed_reconnect_is_not_retried :
  connectivity_class Sim.unreachable
  /\ exists s',
       nonblockExecuteQuery 3 tt Sim.simple_query Sim.no_params Sim.hook_ok
         (Sim.start Sim.blackout)
       = Some (Returned (Some Sim.refused), s')
       /\ log s'
          = [CallNewSession 0 write_mode 0;
             CallRun 0 Sim.simple_query Sim.no_params (inr Sim.unreachable);
             RecoveryLock;
             CallVerifyConnectivity 0 (Some Sim.refused);
             CallNewDriver "neo4j://localhost" Sim.auth (inr Sim.refused);
             RecoveryUnlock;
             CallSessionClose 0]
       /\ count_events is_reconnect (log s') = 1
       /\ count_events is_new_session (log s') = 1.
Proof.
  split; [exact unreachable_is_connectivity|].
  eexists. split; [vm_compute; reflexivity|]. repeat split.
Qed.

Lemma run_error_classification_witness :
  driver (this (Sim.start (Sim.faulty 1 [Sim.syntax_error] [] []))) = Some 0
  /\ DriverNewSession 0 tt write_mode (Sim.faulty 1 [Sim.syntax_error] [] [])
     = (0, Sim.faulty 1 [Sim.syntax_error] [] [])
  /\ SessionRun 0 tt Sim.simple_query Sim.no_params
       (Sim.faulty 1 [Sim.syntax_error] [] [])
     = (inr Sim.syntax_error, Sim.quiet)
  /\ nonblockExecuteQuery 1 tt Sim.simple_query Sim.no_params Sim.hook_ok
       (Sim.start (Sim.faulty 1 [Sim.syntax_error] [] []))
     = Some (Returned (Some Sim.syntax_error),
             {| this := Sim.guardian 0; world := Sim.quiet;
                log := [CallNewSession 0 write_mode 0;
                        CallRun 0 Sim.simple_query Sim.no_params
                          (inr Sim.syntax_error);
                        CallSessionClose 0] |}).
Proof.
  split; [reflexivity|]. split; [reflexivity|]. split; [reflexivity|].
  apply (proj1 (run_error_classification (E := Sim.sim) 0 tt
                  Sim.simple_query Sim.no_params Sim.hook_ok
                  (Sim.start (Sim.faulty 1 [Sim.syntax_error] [] []))
                  0 0 (Sim.faulty 1 [Sim.syntax_error] [] [])
                  Sim.syntax_error Sim.quiet eq_refl eq_refl eq_refl)).
  exact syntax_error_is_not_connectivity.
Defined.

(** ** C2 *)

(** A reconnect that succeeds without constructing anything: the first [Run]
    fails with a connectivity error, but the handle verifies, so
    [reconnect] returns nil at once; the retry succeeds.  One reconnect, no
    construction. *)
Lemma reconnect_without_construction :
  connectivity_class Sim.unreachable
  /\ exists s',
       ExecuteQuery 2 tt Sim.simple_query Sim.no_params Sim.hook_ok
         (Sim.start (Sim.faulty 1 [Sim.unreachable] [] []))
       = Some (Returned None, s')
       /\ log s'
          = [AccessRLock;
             CallNewSession 0 write_mode 0;
             CallRun 0 Sim.simple_query Sim.no_params (inr Sim.unreachable);
             RecoveryLock; CallVerifyConnectivity 0 None; RecoveryUnlock;
             CallNewSession 0 write_mode 0;
             CallRun 0 Sim.simple_query Sim.no_params (inl 0);
             CallHook 0 (Returned None);
             CallSessionClose 0; CallSessionClose 0;
             AccessRUnlock]
       /\ count_events is_reconnect (log s') = 1
       /\ count_events is_construction (log s') = 0.
Proof.
  split; [exact unreachable_is_connectivity|].
  eexists. split; [vm_compute; reflexivity|]. repeat split.
Qed.

Lemma retry_after_one_reconnect_witness :
  driver (this (Sim.start Sim.outage)) = Some 0
  /\ DriverNewSession 0 tt write_mode Sim.outage = (0, Sim.outage)
  /\ SessionRun 0 tt Sim.simple_query Sim.no_params Sim.outage
     = (inr Sim.unreachable, Sim.outage_seen)
  /\ connectivity_class Sim.unreachable
  /\ reconnect tt
       (after (Sim.start Sim.outage) Sim.outage_seen
          [AccessRLock; CallNewSession 0 write_mode 0;
           CallRun 0 Sim.simple_query Sim.no_params (inr Sim.unreachable)])
     = Some (Returned None,
             {| this := Sim.guardian 1; world := Sim.rebuilt;
                log := [AccessRLock;
                        CallNewSession 0 write_mode 0;
                        CallRun 0 Sim.simple_query Sim.no_params
                          (inr Sim.unreachable);
                        RecoveryLock;
                        CallVerifyConnectivity 0 (Some Sim.refused);
                        CallNewDriver "neo4j://localhost" Sim.auth (inl 1);
                        CallDriverClose 0;
                        RecoveryUnlock] |})
  /\ DriverNewSession 1 tt write_mode Sim.rebuilt = (1, Sim.rebuilt)
  /\ SessionRun 1 tt Sim.simple_query Sim.no_params Sim.rebuilt
     = (inl 0, Sim.rebuilt)
  /\ Sim.hook_ok 0 Sim.rebuilt = (Returned None, Sim.rebuilt)
  /\ exists s' evs,
       ExecuteQuery 2 tt Sim.simple_query Sim.no_params Sim.hook_ok
         (Sim.start Sim.outage)
       = Some (Returned None, s')
       /\ log s' = log (Sim.start Sim.outage) ++ evs
       /\ count_events is_reconnect evs = 1
       /\ count_events is_new_session evs = 2
       /\ count_events is_construction evs = 1.
Proof.
  do 3 (split; [reflexivity|]).
  split; [exact unreachable_is_connectivity|].
  do 4 (split; [reflexivity|]).
  exact (retry_after_one_reconnect (E := Sim.sim) 0 tt Sim.simple_query
           Sim.no_params Sim.hook_ok (Sim.start Sim.outage) 0 0 Sim.outage
           Sim.unreachable Sim.outage_seen _ 1 1 Sim.rebuilt 0 Sim.rebuilt
           Sim.rebuilt eq_refl eq_refl eq_refl unreachable_is_connectivity
           eq_refl eq_refl eq_refl eq_refl eq_refl).
Defined.

(** ** C3 *)

(** C3 asks that a hook that panics makes [ExecuteQuery] return an error
    made of the panic.  The code misses one case: for a hook that panics
    with nil, the panic is recovered, but nothing turns it into an error,
    and [ExecuteQuery] returns nil after a single attempt. *)
Lemma nil_panic_returns_nil :
  Sim.hook_panics None 0 Sim.quiet = (Panicked None, Sim.quiet)
  /\ exists s',
       ExecuteQuery 1 tt Sim.simple_query Sim.no_params
         (Sim.hook_panics None) (Sim.start Sim.quiet)
       = Some (Returned None, s')
       /\ log s'
          = [AccessRLock;
             CallNewSession 0 write_mode 0;
             CallRun 0 Sim.simple_query Sim.no_params (inl 0);
             CallHook 0 (Panicked None);
             CallSessionClose 0;
             AccessRUnlock].
Proof.
  split; [reflexivity|]. eexists. split; [vm_compute; reflexivity|].
  reflexivity.
Qed.

Lemma hook_failure_is_surfaced_witness :
  driver (this (Sim.start Sim.quiet)) = Some 0
  /\ DriverNewSession 0 tt write_mode Sim.quiet = (0, Sim.quiet)
  /\ SessionRun 0 tt Sim.simple_query Sim.no_params Sim.quiet
     = (inl 0, Sim.quiet)
  /\ Sim.hook_panics (Some (OtherValue "boom")) 0 Sim.quiet
     = (Panicked (Some (OtherValue "boom")), Sim.quiet)
  /\ SessionClose 0 tt Sim.quiet = (None, Sim.quiet)
  /\ exists verdict s' evs,
       ExecuteQuery 1 tt Sim.simple_query Sim.no_params
         (Sim.hook_panics (Some (OtherValue "boom"))) (Sim.start Sim.quiet)
       = Some (Returned verdict, s')
       /\ verdict
          = Some (errorString
                    ("[neo4j onResults] recovered from panic: "
                       ++ fmt_v (OtherValue "boom")
                       ++ newline ++ newline ++ debug_Stack Sim.quiet)%string)
       /\ this s' = this (Sim.start Sim.quiet)
       /\ log s' = log (Sim.start Sim.quiet) ++ evs
       /\ evs = [AccessRLock;
                 CallNewSession 0 write_mode 0;
                 CallRun 0 Sim.simple_query Sim.no_params (inl 0);
                 CallHook 0 (Panicked (Some (OtherValue "boom")));
                 CallSessionClose 0;
                 AccessRUnlock]
       /\ count_events is_reconnect evs = 0
       /\ count_events is_construction evs = 0
       /\ count_events is_new_session evs = 1.
Proof.
  do 5 (split; [reflexivity|]).
  exact (hook_failure_is_surfaced (E := Sim.sim) 0 tt Sim.simple_query
           Sim.no_params (Sim.hook_panics (Some (OtherValue "boom")))
           (Sim.start Sim.quiet) 0 0 Sim.quiet 0 Sim.quiet
           (Panicked (Some (OtherValue "boom"))) Sim.quiet None Sim.quiet
           eq_refl eq_refl eq_refl eq_refl eq_refl).
Defined.

(** ** C4 *)

Lemma reconnect_double_check_witness :
  driver (this (Sim.start Sim.quiet)) = Some 0
  /\ DriverVerifyConnectivity 0 tt (world (Sim.start Sim.quiet))
     = (None, Sim.quiet)
  /\ exists s',
       reconnect tt (Sim.start Sim.quiet) = Some (Returned None, s')
       /\ this s' = this (Sim.start Sim.quiet)
       /\ world s' = Sim.quiet
       /\ log s'
          = log (Sim.start Sim.quiet)
            ++ [RecoveryLock; CallVerifyConnectivity 0 None; RecoveryUnlock]
       /\ count_events is_construction
            [RecoveryLock; CallVerifyConnectivity 0 None; RecoveryUnlock] = 0.
Proof.
  do 2 (split; [reflexivity|]).
  exact (reconnect_double_check (E := Sim.sim) tt (Sim.start Sim.quiet) 0
           Sim.quiet eq_refl eq_refl).
Defined.

(** ** C5 *)

Lemma reconnect_construction_failure_witness :
  driver (this (Sim.start (Sim.faulty 1 [] [Sim.refused] [Sim.refused])))
  = Some 0
  /\ DriverVerifyConnectivity 0 tt (Sim.faulty 1 [] [Sim.refused] [Sim.refused])
     = (Some Sim.refused, Sim.faulty 1 [] [] [Sim.refused])
  /\ NewDriverWithContext "neo4j://localhost" Sim.auth
       (Sim.faulty 1 [] [] [Sim.refused])
     = (inr Sim.refused, Sim.quiet)
  /\ exists s' evs,
       reconnect tt (Sim.start (Sim.faulty 1 [] [Sim.refused] [Sim.refused]))
       = Some (Returned (Some Sim.refused), s')
       /\ this s' = Sim.guardian 0
       /\ driver (this s') = Some 0
       /\ world s' = Sim.quiet
       /\ log s' = [] ++ evs
       /\ existsb is_driver_close evs = false.
Proof.
  do 3 (split; [reflexivity|]).
  exact (reconnect_construction_failure (E := Sim.sim) tt
           (Sim.start (Sim.faulty 1 [] [Sim.refused] [Sim.refused])) 0
           Sim.refused (Sim.faulty 1 [] [] [Sim.refused]) Sim.refused
           Sim.quiet eq_refl eq_refl eq_refl).
Defined.

(** ** C6 *)

Lemma every_session_is_closed_witness :
  exists o s',
    nonblockExecuteQuery 2 tt Sim.simple_query Sim.no_params Sim.hook_fails
      (Sim.start Sim.outage)
    = Some (o, s')
    /\ exists evs,
         log s' = log (Sim.start Sim.outage) ++ evs
         /\ all_sessions_closed evs.
Proof.
  do 2 eexists.
  refine ((fun H => conj H
             (every_session_is_closed (E := Sim.sim) 2 tt Sim.simple_query
                Sim.no_params Sim.hook_fails (Sim.start Sim.outage) _ _ H))
            _).
  vm_compute. reflexivity.
Defined.

(** ** C7 *)

(** The session is still open when the hook runs: its [Close] is the last
    call of the attempt, after the hook. *)
Lemma session_open_during_hook :
  exists s',
    nonblockExecuteQuery 1 tt Sim.simple_query Sim.no_params Sim.hook_ok
      (Sim.start Sim.quiet)
    = Some (Returned None, s')
    /\ log s'
       = [CallNewSession 0 write_mode 0;
          CallRun 0 Sim.simple_query Sim.no_params (inl 0);
          CallHook 0 (Returned None);
          CallSessionClose 0]
    /\ occurs_before is_session_close is_hook (log s') = false.
Proof.
  eexists. split; [vm_compute; reflexivity|]. split; reflexivity.
Qed.

Lemma session_released_after_hook_witness :
  driver (this (Sim.start Sim.quiet)) = Some 0
  /\ DriverNewSession 0 tt write_mode Sim.quiet = (0, Sim.quiet)
  /\ SessionRun 0 tt Sim.simple_query Sim.no_params Sim.quiet
     = (inl 0, Sim.quiet)
  /\ Sim.hook_ok 0 Sim.quiet = (Returned None, Sim.quiet)
  /\ SessionClose 0 tt Sim.quiet = (None, Sim.quiet)
  /\ exists verdict s',
       nonblockExecuteQuery 1 tt Sim.simple_query Sim.no_params Sim.hook_ok
         (Sim.start Sim.quiet)
       = Some (Returned verdict, s')
       /\ world s' = Sim.quiet
       /\ log s'
          = log (Sim.start Sim.quiet)
            ++ [CallNewSession 0 write_mode 0;
                CallRun 0 Sim.simple_query Sim.no_params (inl 0);
                CallHook 0 (Returned None);
                CallSessionClose 0]
       /\ occurs_before is_hook is_session_close
            [CallNewSession 0 write_mode 0;
             CallRun 0 Sim.simple_query Sim.no_params (inl 0);
             CallHook 0 (Returned None);
             CallSessionClose 0] = true
       /\ occurs_before is_session_close is_hook
            [CallNewSession 0 write_mode 0;
             CallRun 0 Sim.simple_query Sim.no_params (inl 0);
             CallHook 0 (Returned None);
             CallSessionClose 0] = false.
Proof.
  do 5 (split; [reflexivity|]).
  exact (session_released_after_hook (E := Sim.sim) 0 tt Sim.simple_query
           Sim.no_params Sim.hook_ok (Sim.start Sim.quiet) 0 0 Sim.quiet 0
           Sim.quiet (Returned None) Sim.quiet None Sim.quiet
           eq_refl eq_refl eq_refl eq_refl eq_refl).
Defined.

(** ** C8 *)

Lemma query_after_Close_recovers_witness :
  NewDriverWithContext "neo4j://localhost" Sim.auth Sim.pristine
  = (inl 0, Sim.quiet)
  /\ DriverNewSession 0 tt write_mode (snd (DriverClose 0 tt Sim.quiet))
     = (0, Sim.shut)
  /\ SessionRun 0 tt Sim.simple_query Sim.no_params Sim.shut
     = (inr Sim.closed_driver, Sim.shut)
  /\ Error Sim.closed_driver
     = "Trying to create session on closed driver"%string
  /\ DriverVerifyConnectivity 0 tt Sim.shut
     = (Some (errorString "driver is closed"), Sim.shut)
  /\ NewDriverWithContext "neo4j://localhost" Sim.auth Sim.shut
     = (inl 1, Sim.rebuilt)
  /\ DriverNewSession 1 tt write_mode (snd (DriverClose 0 tt Sim.rebuilt))
     = (1, Sim.reopened)
  /\ SessionRun 1 tt Sim.simple_query Sim.no_params Sim.reopened
     = (inl 0, Sim.reopened)
  /\ Sim.hook_ok 0 Sim.reopened = (Returned None, Sim.reopened)
  /\ exists s',
       close_then_query Sim.connectionSettings 2 tt Sim.simple_query
         Sim.no_params Sim.hook_ok (Sim.boot Sim.pristine)
       = Some (Returned None, s')
       /\ driver (this s') = Some 1
       /\ log s'
          = log (Sim.boot Sim.pristine) ++
            [CallNewDriver "neo4j://localhost" Sim.auth (inl 0);
             AccessLock; CallDriverClose 0; AccessUnlock;
             AccessRLock;
             CallNewSession 0 write_mode 0;
             CallRun 0 Sim.simple_query Sim.no_params
               (inr Sim.closed_driver);
             RecoveryLock;
             CallVerifyConnectivity 0 (Some (errorString "driver is closed"));
             CallNewDriver "neo4j://localhost" Sim.auth (inl 1);
             CallDriverClose 0;
             RecoveryUnlock;
             CallNewSession 1 write_mode 1;
             CallRun 1 Sim.simple_query Sim.no_params (inl 0);
             CallHook 0 (Returned None);
             CallSessionClose 1;
             CallSessionClose 0;
             AccessRUnlock].
Proof.
  do 9 (split; [reflexivity|]).
  exact (query_after_Close_recovers (E := Sim.sim) Sim.connectionSettings 0
           tt Sim.simple_query Sim.no_params Sim.hook_ok
           (Sim.boot Sim.pristine) 0 Sim.quiet 0 Sim.shut Sim.closed_driver
           Sim.shut (errorString "driver is closed") Sim.shut 1 Sim.rebuilt 1
           Sim.reopened 0 Sim.reopened Sim.reopened
           eq_refl eq_refl eq_refl eq_refl eq_refl eq_refl eq_refl eq_refl
           eq_refl).
Defined.


(** * Further properties *)

Section Further.
Context {E : Environment}.
Implicit Types (s : state) (ctx : context) (h : DriverWithContext)
  (session : SessionWithContext) (evs : list event) (d : Driver).

(** ** Every call that comes back is an [attempt] *)

Lemma nonblock_attempt ctx query params (onResults : ResultsHookFn) depth :
  forall s o s' h,
    driver (this s) = Some h ->
    nonblockExecuteQuery depth ctx query params onResults s = Some (o, s') ->
    exists evs,
      attempt ctx query params onResults (this s) (world s) evs o
        (this s') (world s')
      /\ log s' = log s ++ evs.
Proof.
  induction depth as [|depth IH]; intros s o s' h Hd H; [discriminate|].
  destruct (DriverNewSession h ctx write_mode (world s)) as [session w1]
    eqn:Hs.
  destruct (SessionRun session ctx query params w1) as [r w2] eqn:Hr.
  rewrite (nonblock_unfold _ _ _ _ _ _ _ _ _ _ _ Hd Hs Hr) in H.
  set (s2 := after s w2 [CallNewSession h write_mode session;
                         CallRun session query params r]) in *.
  unfold defer in H.
  destruct (after_run depth ctx query params onResults r s2)
    as [[ob sb]|] eqn:Hb; [|discriminate].
  rewrite CloseSession_eq in H. injection H as <- <-.
  destruct (SessionClose session ctx (world sb)) as [ce wc] eqn:Hc.
  cbn [snd after this world log].
  unfold after_run in Hb. destruct r as [result|err].
  - destruct (onResults result (world s2)) as [ho w3] eqn:Hh.
    cbn -[executeHook] in Hb. rewrite (executeHook_eq _ _ _ _ _ Hh) in Hb.
    assert (Hsb : ob = Returned (hook_verdict ho w3)
                  /\ sb = after s2 w3 [CallHook result ho]).
    { destruct (hook_verdict ho w3); injection Hb as <- <-; now split. }
    destruct Hsb as [-> ->]. cbn in Hc |- *. eexists. split.
    + exact (attempt_hook ctx query params onResults (this s) (world s) h
               session w1 result w2 ho w3 ce wc Hd Hs Hr Hh Hc).
    + now rewrite <- !app_assoc.
  - destruct (needs_reconnect err) eqn:Hn.
    + assert (Hd2 : driver (this s2) = Some h) by exact Hd.
      cbn -[reconnect nonblockExecuteQuery] in Hb.
      rewrite (reconnect_cases ctx s2 h Hd2) in Hb. cbn [world s2 after] in Hb.
      destruct (DriverVerifyConnectivity h ctx w2) as [[e0|] w3] eqn:Hv;
        cbn [fst snd] in Hb.
      * destruct (NewDriverWithContext (dbURI (this s2))
                    (BasicAuth (user (this s2)) (password (this s2)) "") w3)
          as [[h'|failure] w4] eqn:Hb4; cbn [fst snd] in Hb.
        -- destruct (DriverClose h ctx w4) as [cd w5] eqn:Hcd.
           cbn [snd] in Hb.
           apply (IH _ _ _ h') in Hb; [|reflexivity].
           destruct Hb as (evs & Hatt & Hlog). cbn in Hatt, Hlog.
           eexists. split.
           ++ exact (attempt_retry_rebuilt ctx query params onResults
                       (this s) (world s) h session w1 err w2 e0 w3 h' w4 cd
                       w5 evs ob (this sb) (world sb) ce wc Hd Hs Hr Hn Hv
                       Hb4 Hcd Hatt Hc).
           ++ rewrite Hlog. now rewrite <- !app_assoc.
        -- injection Hb as <- <-. cbn in Hc |- *. eexists. split.
           ++ exact (attempt_not_rebuilt ctx query params onResults
                       (this s) (world s) h session w1 err w2 e0 w3 failure
                       w4 ce wc Hd Hs Hr Hn Hv Hb4 Hc).
           ++ now rewrite <- !app_assoc.
      * apply (IH _ _ _ h) in Hb; [|exact Hd].
        destruct Hb as (evs & Hatt & Hlog). cbn in Hatt, Hlog.
        eexists. split.
        -- exact (attempt_retry_verified ctx query params onResults
                    (this s) (world s) h session w1 err w2 w3 evs ob
                    (this sb) (world sb) ce wc Hd Hs Hr Hn Hv Hatt Hc).
        -- rewrite Hlog. now rewrite <- !app_assoc.
    + injection Hb as <- <-. cbn in Hc |- *. eexists. split.
      * exact (attempt_error ctx query params onResults (this s) (world s) h
                 session w1 err w2 ce wc Hd Hs Hr Hn Hc).
      * now rewrite <- !app_assoc.
Qed.

Lemma ExecuteQuery_inv ctx query params (onResults : ResultsHookFn) depth s
    o s' :
  ExecuteQuery depth ctx query params onResults s = Some (o, s') ->
  exists s1,
    nonblockExecuteQuery depth ctx query params onResults
      (after s (world s) [AccessRLock]) = Some (o, s1)
    /\ s' = after s1 (world s1) [AccessRUnlock].
Proof.
  rewrite ExecuteQuery_eq. unfold defer.
  destruct (nonblockExecuteQuery _ _ _ _ _ _) as [[o1 s1]|]; [|discriminate].
  rewrite emit_eq. intros H. injection H as <- <-. now exists s1.
Qed.

Lemma ExecuteQuery_attempt ctx query params (onResults : ResultsHookFn) depth
    s o s' h :
  driver (this s) = Some h ->
  ExecuteQuery depth ctx query params onResults s = Some (o, s') ->
  exists evs,
    attempt ctx query params onResults (this s) (world s) evs o
      (this s') (world s')
    /\ log s' = log s ++ AccessRLock :: evs ++ [AccessRUnlock].
Proof.
  intros Hd H. apply ExecuteQuery_inv in H as (s1 & H & ->).
  apply (nonblock_attempt _ _ _ _ _ _ _ _ h) in H; [|exact Hd].
  destruct H as (evs & Hatt & Hlog). exists evs. split; [exact Hatt|].
  cbn in Hlog |- *. rewrite Hlog. now rewrite <- !app_assoc.
Qed.

Lemma ExecuteQuery_nil ctx query params (onResults : ResultsHookFn) depth s
    o s' :
  driver (this s) = None ->
  ExecuteQuery depth ctx query params onResults s = Some (o, s') ->
  o = Panicked nil_dereference
  /\ s' = after s (world s) [AccessRLock; AccessRUnlock].
Proof.
  intros Hd H. apply ExecuteQuery_inv in H as (s1 & H & ->).
  destruct depth as [|depth]; [discriminate|].
  rewrite nonblock_nil in H by exact Hd. injection H as <- <-.
  split; [reflexivity|]. now rewrite after_after.
Qed.

(** ** The Guardian across a call *)

Lemma attempt_returns ctx query params (onResults : ResultsHookFn) d w evs o
    d' w' :
  attempt ctx query params onResults d w evs o d' w' ->
  exists verdict, o = Returned verdict.
Proof. induction 1; eauto. Qed.

Lemma attempt_keeps_parameters ctx query params (onResults : ResultsHookFn)
    d w evs o d' w' :
  attempt ctx query params onResults d w evs o d' w' ->
  dbURI d' = dbURI d /\ user d' = user d /\ password d' = password d
  /\ exists h', driver d' = Some h'.
Proof.
  induction 1; try (destruct IHattempt as (-> & -> & -> & Hh)); eauto 6.
Qed.

(** X1: whatever happens during [ExecuteQuery], the endpoint, user and
    password the Guardian was built with are the same when the call comes
    back, and the Guardian holds a handle afterwards exactly when it held
    one before: reconnecting replaces the handle, it never drops it. *)
Theorem ExecuteQuery_keeps_the_parameters ctx query params
    (onResults : ResultsHookFn) depth s o s' :
  ExecuteQuery depth ctx query params onResults s = Some (o, s') ->
  dbURI (this s') = dbURI (this s)
  /\ user (this s') = user (this s)
  /\ password (this s') = password (this s)
  /\ (driver (this s') = None <-> driver (this s) = None).
Proof.
  intros H. destruct (driver (this s)) as [h|] eqn:Hd.
  - apply (ExecuteQuery_attempt _ _ _ _ _ _ _ _ h Hd) in H.
    destruct H as (evs & Hatt & _).
    apply attempt_keeps_parameters in Hatt as (-> & -> & -> & h' & ->).
    repeat split; discriminate.
  - apply ExecuteQuery_nil in H as [_ ->]; [|exact Hd]. cbn.
    now rewrite Hd.
Qed.

(** X2: on a Guardian that holds a handle, [ExecuteQuery] never panics: a
    panic of the hook is recovered, and nothing else in the call can reach
    a nil handle.  A call that comes back has returned. *)
Theorem ExecuteQuery_does_not_panic ctx query params
    (onResults : ResultsHookFn) depth s o s' h :
  driver (this s) = Some h ->
  ExecuteQuery depth ctx query params onResults s = Some (o, s') ->
  exists verdict, o = Returned verdict.
Proof.
  intros Hd H. apply (ExecuteQuery_attempt _ _ _ _ _ _ _ _ h Hd) in H.
  destruct H as (evs & Hatt & _). exact (attempt_returns _ _ _ _ _ _ _ _ _ _ Hatt).
Qed.

(** X3: on a Guardian without a handle (the zero value of [Driver]),
    [ExecuteQuery] panics with the runtime's nil dereference before it
    makes any call; the read lock it took is released on the way out. *)
Theorem ExecuteQuery_without_handle ctx query params
    (onResults : ResultsHookFn) depth s :
  driver (this s) = None ->
  ExecuteQuery (S depth) ctx query params onResults s
  = Some (Panicked nil_dereference,
          after s (world s) [AccessRLock; AccessRUnlock]).
Proof.
  intros Hd. rewrite ExecuteQuery_eq. unfold defer.
  rewrite nonblock_nil by exact Hd. rewrite emit_eq.
  now rewrite after_after.
Qed.

(** ** Locks *)

Lemma recovery_lock_after_app held evs1 evs2 :
  recovery_lock_after held (evs1 ++ evs2)
  = match recovery_lock_after held evs1 with
    | Some held' => recovery_lock_after held' evs2
    | None => None
    end.
Proof.
  revert held. induction evs1 as [|e evs1 IH]; intros held; [reflexivity|].
  destruct e, held; simpl; auto.
Qed.

Lemma recovery_lock_after_no_access held held' evs :
  recovery_lock_after held evs = Some held' ->
  existsb is_access_lock evs = false.
Proof.
  revert held. induction evs as [|e evs IH]; intros held Hl; [reflexivity|].
  destruct e, held; simpl in *; try discriminate; eauto.
Qed.

Lemma attempt_locks ctx query params (onResults : ResultsHookFn) d w evs o
    d' w' :
  attempt ctx query params onResults d w evs o d' w' ->
  recovery_lock_after false evs = Some false.
Proof.
  induction 1; try reflexivity.
  - cbn. rewrite recovery_lock_after_app, IHattempt. reflexivity.
  - cbn. rewrite recovery_lock_after_app, IHattempt. reflexivity.
Qed.

(** X4: the locks of a call of [ExecuteQuery] that comes back.  The read
    side of the access lock is taken once, first, and released once, last,
    however many times the query is retried; in between the access lock is
    not touched.  The recovery lock is only taken while free and is free at
    the end; verification, construction and the closing of a handle happen
    only under it, and sessions, [Run] and the hook only outside it. *)
Theorem ExecuteQuery_lock_discipline ctx query params
    (onResults : ResultsHookFn) depth s o s' :
  ExecuteQuery depth ctx query params onResults s = Some (o, s') ->
  exists evs,
    log s' = log s ++ AccessRLock :: evs ++ [AccessRUnlock]
    /\ existsb is_access_lock evs = false
    /\ recovery_lock_after false evs = Some false.
Proof.
  intros H. destruct (driver (this s)) as [h|] eqn:Hd.
  - apply (ExecuteQuery_attempt _ _ _ _ _ _ _ _ h Hd) in H.
    destruct H as (evs & Hatt & Hlog). exists evs.
    split; [exact Hlog|].
    pose proof (attempt_locks _ _ _ _ _ _ _ _ _ _ Hatt) as Hl.
    split; [exact (recovery_lock_after_no_access _ _ _ Hl) | exact Hl].
  - apply ExecuteQuery_nil in H as [_ ->]; [|exact Hd].
    exists []. repeat split.
Qed.

(** ** Readings of a log made of two parts *)

Lemma count_events_app (p : event -> bool) evs1 evs2 :
  count_events p (evs1 ++ evs2) = count_events p evs1 + count_events p evs2.
Proof. unfold count_events. now rewrite filter_app, length_app. Qed.

Lemma opened_sessions_app evs1 evs2 :
  opened_sessions (evs1 ++ evs2)
  = opened_sessions evs1 ++ opened_sessions evs2.
Proof.
  induction evs1 as [|e evs1 IH]; [reflexivity|].
  destruct e; simpl; now rewrite ?IH.
Qed.

Lemma ran_sessions_app evs1 evs2 :
  ran_sessions (evs1 ++ evs2) = ran_sessions evs1 ++ ran_sessions evs2.
Proof.
  induction evs1 as [|e evs1 IH]; [reflexivity|].
  destruct e; simpl; now rewrite ?IH.
Qed.

Lemma closed_sessions_app evs1 evs2 :
  closed_sessions (evs1 ++ evs2)
  = closed_sessions evs1 ++ closed_sessions evs2.
Proof.
  induction evs1 as [|e evs1 IH]; [reflexivity|].
  destruct e; simpl; now rewrite ?IH.
Qed.

Lemma built_handles_app evs1 evs2 :
  built_handles (evs1 ++ evs2) = built_handles evs1 ++ built_handles evs2.
Proof.
  induction evs1 as [|e evs1 IH]; [reflexivity|].
  destruct e as [| | | | | |? ? [?|?]| | | | | |]; simpl; now rewrite ?IH.
Qed.

Lemma closed_handles_app evs1 evs2 :
  closed_handles (evs1 ++ evs2) = closed_handles evs1 ++ closed_handles evs2.
Proof.
  induction evs1 as [|e evs1 IH]; [reflexivity|].
  destruct e; simpl; now rewrite ?IH.
Qed.

(** ** The hook *)

Lemma hook_verdict_nil (o : outcome (option error)) w :
  hook_verdict o w = None -> o = Returned None \/ o = Panicked None.
Proof. destruct o as [[e|]|[r|]]; simpl; intros H; auto; discriminate. Qed.

Lemma attempt_hook_once ctx query params (onResults : ResultsHookFn) d w evs
    o d' w' :
  attempt ctx query params onResults d w evs o d' w' ->
  count_events is_hook evs <= 1
  /\ (forall result ho,
        In (CallHook result ho) evs ->
        exists w3, o = Returned (hook_verdict ho w3))
  /\ (o = Returned None ->
      exists pre result ho closes,
        evs = pre ++ CallHook result ho :: closes
        /\ count_events is_hook pre = 0
        /\ forallb is_session_close closes = true
        /\ (ho = Returned None \/ ho = Panicked None)).
Proof.
  induction 1.
  - split; [cbn; lia|]. split.
    + intros result' ho Hin. cbn in Hin.
      destruct Hin as [Hin|[Hin|[Hin|[Hin|[]]]]]; try discriminate.
      injection Hin as <- <-. now exists w3.
    + intros Ho. injection Ho as Ho. apply hook_verdict_nil in Ho.
      exists [CallNewSession h write_mode session;
              CallRun session query params (inl result)],
        result, o, [CallSessionClose session].
      repeat split. exact Ho.
  - split; [cbn; lia|]. split; [|discriminate].
    intros result ho Hin. cbn in Hin.
    destruct Hin as [Hin|[Hin|[Hin|[]]]]; discriminate.
  - split; [cbn; lia|]. split; [|discriminate].
    intros result ho Hin. cbn in Hin.
    repeat (destruct Hin as [Hin|Hin]; [discriminate|]). destruct Hin.
  - destruct IHattempt as (Hcount & Hin & Hnil). split; [|split].
    + rewrite !count_events_app. cbn. lia.
    + intros result ho Hi. apply in_app_or in Hi as [Hi|Hi].
      * cbn in Hi.
        repeat (destruct Hi as [Hi|Hi]; [discriminate|]). destruct Hi.
      * apply in_app_or in Hi as [Hi|Hi]; [eauto|].
        cbn in Hi. destruct Hi as [Hi|[]]. discriminate.
    + intros Ho. destruct (Hnil Ho) as (pre & result & ho & closes & -> & Hpre
                                        & Hcl & Hho).
      exists ([CallNewSession h write_mode session;
               CallRun session query params (inr err);
               RecoveryLock;
               CallVerifyConnectivity h None;
               RecoveryUnlock] ++ pre),
        result, ho, (closes ++ [CallSessionClose session]).
      split; [now rewrite <- !app_assoc|].
      split; [rewrite count_events_app, Hpre; reflexivity|].
      split; [rewrite forallb_app, Hcl; reflexivity | exact Hho].
  - destruct IHattempt as (Hcount & Hin & Hnil). split; [|split].
    + rewrite !count_events_app. cbn. lia.
    + intros result ho Hi. apply in_app_or in Hi as [Hi|Hi].
      * cbn in Hi.
        repeat (destruct Hi as [Hi|Hi]; [discriminate|]). destruct Hi.
      * apply in_app_or in Hi as [Hi|Hi]; [eauto|].
        cbn in Hi. destruct Hi as [Hi|[]]. discriminate.
    + intros Ho. destruct (Hnil Ho) as (pre & result & ho & closes & -> & Hpre
                                        & Hcl & Hho).
      exists ([CallNewSession h write_mode session;
               CallRun session query params (inr err);
               RecoveryLock;
               CallVerifyConnectivity h (Some e0);
               CallNewDriver (dbURI d) (BasicAuth (user d) (password d) "")
                 (inl h');
               CallDriverClose h;
               RecoveryUnlock] ++ pre),
        result, ho, (closes ++ [CallSessionClose session]).
      split; [now rewrite <- !app_assoc|].
      split; [rewrite count_events_app, Hpre; reflexivity|].
      split; [rewrite forallb_app, Hcl; reflexivity | exact Hho].
Qed.

(** X5: in a call of [ExecuteQuery] that comes back, the hook has run at
    most once, however many retries there were, and if it has run, its
    verdict is what the call returns.  A call that returns nil has run the
    hook exactly once, the hook ended with nil, and after the hook the call
    only closed its sessions and released the read lock. *)
Theorem ExecuteQuery_runs_the_hook_once ctx query params
    (onResults : ResultsHookFn) depth s o s' :
  ExecuteQuery depth ctx query params onResults s = Some (o, s') ->
  exists evs,
    log s' = log s ++ evs
    /\ count_events is_hook evs <= 1
    /\ (forall result ho,
          In (CallHook result ho) evs ->
          exists w3, o = Returned (hook_verdict ho w3))
    /\ (o = Returned None ->
        exists pre result ho closes,
          evs = pre ++ CallHook result ho :: closes ++ [AccessRUnlock]
          /\ count_events is_hook pre = 0
          /\ forallb is_session_close closes = true
          /\ (ho = Returned None \/ ho = Panicked None)).
Proof.
  intros H. destruct (driver (this s)) as [h|] eqn:Hd.
  - apply (ExecuteQuery_attempt _ _ _ _ _ _ _ _ h Hd) in H.
    destruct H as (evs & Hatt & Hlog).
    apply attempt_hook_once in Hatt as (Hcount & Hin & Hnil).
    exists (AccessRLock :: evs ++ [AccessRUnlock]).
    split; [exact Hlog|]. split; [|split].
    + change (AccessRLock :: evs ++ [AccessRUnlock])
        with ([AccessRLock] ++ evs ++ [AccessRUnlock]).
      rewrite !count_events_app. cbn. lia.
    + intros result ho [Hi|Hi]; [discriminate|].
      apply in_app_or in Hi as [Hi|[Hi|[]]]; [eauto | discriminate].
    + intros Ho. destruct (Hnil Ho) as (pre & result & ho & closes & -> & Hpre
                                        & Hcl & Hho).
      exists (AccessRLock :: pre), result, ho, closes.
      split; [cbn; now rewrite <- !app_assoc|].
      split; [exact Hpre|]. split; [exact Hcl | exact Hho].
  - apply ExecuteQuery_nil in H as [-> ->]; [|exact Hd].
    exists [AccessRLock; AccessRUnlock].
    split; [reflexivity|]. split; [cbn; lia|]. split; [|discriminate].
    intros result ho [Hi|[Hi|[]]]; discriminate.
Qed.

(** ** Sessions, round by round *)

Lemma attempt_rounds ctx query params (onResults : ResultsHookFn) d w evs o
    d' w' :
  attempt ctx query params onResults d w evs o d' w' ->
  exists rounds closes,
    evs = rounds ++ closes
    /\ existsb is_session_close rounds = false
    /\ forallb is_session_close closes = true
    /\ ran_sessions rounds = opened_sessions rounds
    /\ closed_sessions closes = rev (opened_sessions rounds)
    /\ count_events is_reconnect rounds <= length (opened_sessions rounds)
    /\ length (opened_sessions rounds)
       <= count_events is_reconnect rounds + 1
    /\ count_events is_failed_construction rounds <= 1
    /\ (forall target auth failure,
          In (CallNewDriver target auth (inr failure)) rounds ->
          exists pre,
            rounds = pre ++ [CallNewDriver target auth (inr failure);
                             RecoveryUnlock])
    /\ length (opened_sessions rounds)
       + count_events is_failed_construction rounds
       = count_events is_reconnect rounds + 1.
Proof.
  induction 1.
  - exists [CallNewSession h write_mode session;
            CallRun session query params (inl result);
            CallHook result o],
      [CallSessionClose session].
    cbn. repeat split; try lia.
    intros target auth failure Hin.
    repeat (destruct Hin as [Hin|Hin]; [discriminate|]). destruct Hin.
  - exists [CallNewSession h write_mode session;
            CallRun session query params (inr err)],
      [CallSessionClose session].
    cbn. repeat split; try lia.
    intros target auth failure Hin.
    repeat (destruct Hin as [Hin|Hin]; [discriminate|]). destruct Hin.
  - exists [CallNewSession h write_mode session;
            CallRun session query params (inr err);
            RecoveryLock;
            CallVerifyConnectivity h (Some e0);
            CallNewDriver (dbURI d) (BasicAuth (user d) (password d) "")
              (inr failure);
            RecoveryUnlock],
      [CallSessionClose session].
    cbn. repeat split; try lia.
    intros target auth failure' Hin.
    do 4 (destruct Hin as [Hin|Hin]; [discriminate|]).
    destruct Hin as [Hin|[Hin|[]]]; [|discriminate].
    injection Hin as <- <- <-.
    now exists [CallNewSession h write_mode session;
                CallRun session query params (inr err);
                RecoveryLock;
                CallVerifyConnectivity h (Some e0)].
  - destruct IHattempt
      as (rounds & closes & -> & Hno & Hall & Hran & Hclosed & Hlo & Hhi
          & Hone & Hlast & Hsum).
    exists ([CallNewSession h write_mode session;
             CallRun session query params (inr err);
             RecoveryLock;
             CallVerifyConnectivity h None;
             RecoveryUnlock] ++ rounds),
      (closes ++ [CallSessionClose session]).
    split; [now rewrite <- !app_assoc|].
    split; [rewrite existsb_app, Hno; reflexivity|].
    split; [rewrite forallb_app, Hall; reflexivity|].
    rewrite ran_sessions_app, opened_sessions_app, closed_sessions_app,
      !count_events_app, length_app, Hran, Hclosed.
    cbn. repeat split; try lia.
    intros target auth failure Hin.
    do 5 (destruct Hin as [Hin|Hin]; [discriminate|]).
    destruct (Hlast target auth failure Hin) as [pre ->].
    now exists (CallNewSession h write_mode session
                :: CallRun session query params (inr err)
                :: RecoveryLock
                :: CallVerifyConnectivity h None
                :: RecoveryUnlock :: pre).
  - destruct IHattempt
      as (rounds & closes & -> & Hno & Hall & Hran & Hclosed & Hlo & Hhi
          & Hone & Hlast & Hsum).
    exists ([CallNewSession h write_mode session;
             CallRun session query params (inr err);
             RecoveryLock;
             CallVerifyConnectivity h (Some e0);
             CallNewDriver (dbURI d) (BasicAuth (user d) (password d) "")
               (inl h');
             CallDriverClose h;
             RecoveryUnlock] ++ rounds),
      (closes ++ [CallSessionClose session]).
    split; [now rewrite <- !app_assoc|].
    split; [rewrite existsb_app, Hno; reflexivity|].
    split; [rewrite forallb_app, Hall; reflexivity|].
    rewrite ran_sessions_app, opened_sessions_app, closed_sessions_app,
      !count_events_app, length_app, Hran, Hclosed.
    cbn. repeat split; try lia.
    intros target auth failure Hin.
    do 7 (destruct Hin as [Hin|Hin]; [discriminate|]).
    destruct (Hlast target auth failure Hin) as [pre ->].
    now exists (CallNewSession h write_mode session
                :: CallRun session query params (inr err)
                :: RecoveryLock
                :: CallVerifyConnectivity h (Some e0)
                :: CallNewDriver (dbURI d)
                     (BasicAuth (user d) (password d) "") (inl h')
                :: CallDriverClose h
                :: RecoveryUnlock :: pre).
Qed.

(** X6: the sessions of a call of [ExecuteQuery] that comes back.  The call
    proceeds in rounds and closes nothing until the last round is over:
    the sessions of the failed rounds stay open during the retries, and
    all are then closed in the reverse of the order they were opened in.
    [Run] is called exactly once on each session, in the order of opening.
    A reconnect fails at most once, by a failed handle construction, and
    that ends the rounds.  On a Guardian that holds a handle there is one
    session per reconnect, plus one unless the last reconnect failed:
    sessions and failed reconnects together are the reconnects plus one. *)
Theorem ExecuteQuery_sessions_round_by_round ctx query params
    (onResults : ResultsHookFn) depth s o s' :
  ExecuteQuery depth ctx query params onResults s = Some (o, s') ->
  exists rounds closes,
    log s' = log s ++ AccessRLock :: rounds ++ closes ++ [AccessRUnlock]
    /\ existsb is_session_close rounds = false
    /\ forallb is_session_close closes = true
    /\ ran_sessions rounds = opened_sessions rounds
    /\ closed_sessions closes = rev (opened_sessions rounds)
    /\ count_events is_reconnect rounds <= length (opened_sessions rounds)
    /\ length (opened_sessions rounds)
       <= count_events is_reconnect rounds + 1
    /\ count_events is_failed_construction rounds <= 1
    /\ (forall target auth failure,
          In (CallNewDriver target auth (inr failure)) rounds ->
          exists pre,
            rounds = pre ++ [CallNewDriver target auth (inr failure);
                             RecoveryUnlock])
    /\ (driver (this s) <> None ->
        length (opened_sessions rounds)
        + count_events is_failed_construction rounds
        = count_events is_reconnect rounds + 1).
Proof.
  intros H. destruct (driver (this s)) as [h|] eqn:Hd.
  - apply (ExecuteQuery_attempt _ _ _ _ _ _ _ _ h Hd) in H.
    destruct H as (evs & Hatt & Hlog).
    apply attempt_rounds in Hatt
      as (rounds & closes & -> & Hno & Hall & Hran & Hclosed & Hlo & Hhi
          & Hone & Hlast & Hsum).
    exists rounds, closes.
    split; [rewrite Hlog; now rewrite <- !app_assoc|].
    repeat (split; [assumption|]). intros _. exact Hsum.
  - apply ExecuteQuery_nil in H as [_ ->]; [|exact Hd].
    exists [], []. cbn. repeat split; try lia.
    intros Hnil. now destruct Hnil.
Qed.

(** ** Handles *)

Lemma attempt_handles ctx query params (onResults : ResultsHookFn) d w evs o
    d' w' h :
  attempt ctx query params onResults d w evs o d' w' ->
  driver d = Some h ->
  exists h',
    driver d' = Some h'
    /\ h :: built_handles evs = closed_handles evs ++ [h'].
Proof.
  intros Hatt. revert h.
  induction Hatt as
    [ d w h0 | d w h0 | d w h0
    | d w h0 session w1 err w2 w3 evs o d' w' ce w'' Hd Hs Hr Hn Hv Hatt IH Hc
    | d w h0 session w1 err w2 e0 w3 h1 w4 cd w5 evs o d' w' ce w'' Hd Hs Hr
        Hn Hv Hb Hcd Hatt IH Hc ];
    intros h Hh; rewrite Hh in *;
    match goal with H : Some _ = Some _ |- _ => injection H as <- end.
  - now exists h.
  - now exists h.
  - now exists h.
  - destruct (IH h eq_refl) as (h' & Hd' & Heq). exists h'.
    split; [exact Hd'|].
    rewrite !built_handles_app, !closed_handles_app. cbn.
    rewrite !app_nil_r. exact Heq.
  - destruct (IH h1 eq_refl) as (h' & Hd' & Heq). exists h'.
    split; [exact Hd'|].
    rewrite !built_handles_app, !closed_handles_app. cbn.
    rewrite !app_nil_r. now rewrite Heq.
Qed.

(** X7: the handles of a call of [ExecuteQuery] that comes back, on a
    Guardian that held handle [h].  Every handle the Guardian has let go of
    has been closed, once, in the order they were held, and the handle it
    holds at the end is the only one not closed by the call: the handles
    held (the first one, then those built) are the handles closed followed
    by the handle now held. *)
Theorem ExecuteQuery_closes_replaced_handles ctx query params
    (onResults : ResultsHookFn) depth s o s' h :
  driver (this s) = Some h ->
  ExecuteQuery depth ctx query params onResults s = Some (o, s') ->
  exists evs h',
    log s' = log s ++ evs
    /\ driver (this s') = Some h'
    /\ h :: built_handles evs = closed_handles evs ++ [h'].
Proof.
  intros Hd H. apply (ExecuteQuery_attempt _ _ _ _ _ _ _ _ h Hd) in H.
  destruct H as (evs & Hatt & Hlog).
  destruct (attempt_handles _ _ _ _ _ _ _ _ _ _ h Hatt Hd)
    as (h' & Hd' & Heq).
  exists (AccessRLock :: evs ++ [AccessRUnlock]), h'.
  split; [exact Hlog|]. split; [exact Hd'|].
  cbn. rewrite built_handles_app, closed_handles_app. cbn.
  rewrite !app_nil_r. exact Heq.
Qed.

(** ** What is sent, and what comes back *)

Lemma attempt_faithful ctx query params (onResults : ResultsHookFn) d w evs o
    d' w' :
  attempt ctx query params onResults d w evs o d' w' ->
  Forall (faithful_request d query params) evs.
Proof.
  induction 1; repeat (apply Forall_app; split);
    repeat (apply Forall_cons || apply Forall_nil); cbn; auto.
Qed.

(** X8: every request of a call of [ExecuteQuery] that comes back is the
    caller's: each session is opened in write mode, each [Run], first try
    or retry, carries the query and the parameters that were passed, and
    each handle construction uses the endpoint, user and password the
    Guardian stores, with an empty realm. *)
Theorem ExecuteQuery_repeats_the_request ctx query params
    (onResults : ResultsHookFn) depth s o s' :
  ExecuteQuery depth ctx query params onResults s = Some (o, s') ->
  exists evs,
    log s' = log s ++ evs
    /\ Forall (faithful_request (this s) query params) evs.
Proof.
  intros H. destruct (driver (this s)) as [h|] eqn:Hd.
  - apply (ExecuteQuery_attempt _ _ _ _ _ _ _ _ h Hd) in H.
    destruct H as (evs & Hatt & Hlog).
    exists (AccessRLock :: evs ++ [AccessRUnlock]).
    split; [exact Hlog|].
    apply Forall_cons; [exact I|]. apply Forall_app. split.
    + exact (attempt_faithful _ _ _ _ _ _ _ _ _ _ Hatt).
    + now repeat constructor.
  - apply ExecuteQuery_nil in H as [_ ->]; [|exact Hd].
    exists [AccessRLock; AccessRUnlock]. split; [reflexivity|].
    now repeat constructor.
Qed.

Lemma error_source_within evs err pre post :
  error_source evs err -> error_source (pre ++ evs ++ post) err.
Proof.
  assert (Hin : forall e, In e evs -> In e (pre ++ evs ++ post)).
  { intros e He. apply in_or_app. right. apply in_or_app. now left. }
  intros [(session & q & p & Hi & Hn)|[(target & auth & Hi)
                                      |(result & o & Hi & Hf)]].
  - left. exists session, q, p. auto.
  - right. left. exists target, auth. auto.
  - right. right. exists result, o. auto.
Qed.

Lemma hook_verdict_error (o : outcome (option error)) w err :
  hook_verdict o w = Some err -> from_hook o err.
Proof.
  destruct o as [[e|]|[r|]]; simpl; intros H; try discriminate;
    injection H as <-.
  - now left.
  - right. now exists r, (debug_Stack w).
Qed.

Lemma attempt_error_source ctx query params (onResults : ResultsHookFn) d w
    evs o d' w' err :
  attempt ctx query params onResults d w evs o d' w' ->
  o = Returned (Some err) ->
  error_source evs err.
Proof.
  induction 1; intros Ho.
  - injection Ho as Ho. right. right. exists result, o.
    split; [cbn; auto | exact (hook_verdict_error _ _ _ Ho)].
  - injection Ho as <-. left. exists session, query, params.
    split; [cbn; auto | assumption].
  - injection Ho as <-. right. left.
    exists (dbURI d), (BasicAuth (user d) (password d) "").
    cbn. auto 10.
  - apply error_source_within. auto.
  - apply error_source_within. auto.
Qed.

(** X10: where the errors of [ExecuteQuery] come from.  An error it returns
    is the error of a [Run] whose text does not call for a reconnect, or
    the error of a failed handle construction, or the verdict of the hook
    (the error the hook returned, or the error made of its panic).  It
    has no other source among the calls made. *)
Theorem ExecuteQuery_error_source ctx query params
    (onResults : ResultsHookFn) depth s s' err :
  ExecuteQuery depth ctx query params onResults s
  = Some (Returned (Some err), s') ->
  exists evs, log s' = log s ++ evs /\ error_source evs err.
Proof.
  intros H. destruct (driver (this s)) as [h|] eqn:Hd.
  - apply (ExecuteQuery_attempt _ _ _ _ _ _ _ _ h Hd) in H.
    destruct H as (evs & Hatt & Hlog).
    exists ([AccessRLock] ++ evs ++ [AccessRUnlock]).
    split; [exact Hlog|]. apply error_source_within.
    exact (attempt_error_source _ _ _ _ _ _ _ _ _ _ _ Hatt eq_refl).
  - apply ExecuteQuery_nil in H as [H _]; [discriminate | exact Hd].
Qed.

(** ** Retries without end *)

Lemma nonblock_never_comes_back ctx query params (onResults : ResultsHookFn) :
  (forall session w, exists err w',
      SessionRun session ctx query params w = (inr err, w')
      /\ connectivity_class err) ->
  (forall target auth w, exists h' w',
      NewDriverWithContext target auth w = (inl h', w')) ->
  forall depth s h,
    driver (this s) = Some h ->
    nonblockExecuteQuery depth ctx query params onResults s = None.
Proof.
  intros Hrun Hbuild. induction depth as [|depth IH]; intros s h Hd;
    [reflexivity|].
  destruct (DriverNewSession h ctx write_mode (world s)) as [session w1]
    eqn:Hs.
  destruct (Hrun session w1) as (err & w2 & Hr & Hclass).
  apply needs_reconnect_spec in Hclass.
  rewrite (nonblock_unfold _ _ _ _ _ _ _ _ _ _ _ Hd Hs Hr).
  set (s2 := after s w2 [CallNewSession h write_mode session;
                         CallRun session query params (inr err)]).
  assert (Hrec : exists s3 h3,
             reconnect ctx s2 = Some (Returned None, s3)
             /\ driver (this s3) = Some h3).
  { rewrite (reconnect_cases ctx s2 h Hd).
    destruct (fst (DriverVerifyConnectivity h ctx (world s2))) as [e0|].
    - destruct (Hbuild (dbURI (this s2))
                  (BasicAuth (user (this s2)) (password (this s2)) "")
                  (snd (DriverVerifyConnectivity h ctx (world s2))))
        as (h' & w4 & ->).
      cbn [fst snd]. eexists. exists h'. split; reflexivity.
    - eexists. exists h. split; [reflexivity | exact Hd]. }
  destruct Hrec as (s3 & h3 & Hrec & Hd3).
  unfold after_run. rewrite Hclass. unfold defer.
  cbn -[reconnect nonblockExecuteQuery CloseSession].
  rewrite Hrec. now rewrite (IH s3 h3 Hd3).
Qed.

(** X9: nothing bounds the retries.  In a world where every [Run] of the
    query fails with a connectivity-class error while a handle can always
    be built, every reconnect succeeds and is followed by another round: on
    a Guardian that holds a handle, [ExecuteQuery] does not come back
    within any number of nested calls. *)
Theorem ExecuteQuery_has_no_retry_cap ctx query params
    (onResults : ResultsHookFn) :
  (forall session w, exists err w',
      SessionRun session ctx query params w = (inr err, w')
      /\ connectivity_class err) ->
  (forall target auth w, exists h' w',
      NewDriverWithContext target auth w = (inl h', w')) ->
  forall depth s h,
    driver (this s) = Some h ->
    ExecuteQuery depth ctx query params onResults s = None.
Proof.
  intros Hrun Hbuild depth s h Hd. rewrite ExecuteQuery_eq. unfold defer.
  now rewrite (nonblock_never_comes_back ctx query params onResults Hrun
                 Hbuild depth (after s (world s) [AccessRLock]) h Hd).
Qed.

(** ** [reconnect], the remaining ways *)

(** X11: when the handle does not verify and a new handle can be built,
    [reconnect] builds the new handle first, then closes the old one, then
    puts the new one in the Guardian, whose endpoint, user and password it
    keeps; it returns nil whatever closing the old handle returned. *)
Theorem reconnect_replaces_the_handle ctx s h e0 w1 h' w2 :
  driver (this s) = Some h ->
  DriverVerifyConnectivity h ctx (world s) = (Some e0, w1) ->
  NewDriverWithContext (dbURI (this s))
    (BasicAuth (user (this s)) (password (this s)) "") w1 = (inl h', w2) ->
  exists s',
    reconnect ctx s = Some (Returned None, s')
    /\ this s' = with_handle (this s) h'
    /\ world s' = snd (DriverClose h ctx w2)
    /\ log s' = log s ++
         [RecoveryLock;
          CallVerifyConnectivity h (Some e0);
          CallNewDriver (dbURI (this s))
            (BasicAuth (user (this s)) (password (this s)) "") (inl h');
          CallDriverClose h;
          RecoveryUnlock].
Proof.
  intros Hd Hv Hn. destruct (DriverClose h ctx w2) as [cd w3] eqn:Hc.
  eexists. split.
  - exact (reconnect_rebuilt ctx s h e0 w1 h' w2 cd w3 Hd Hv Hn Hc).
  - repeat split.
Qed.

(** X12: the only error [reconnect] returns is that of a failed handle
    construction.  If it returns an error, then [VerifyConnectivity] had
    failed, with an error that is not reported, the construction failed
    with the error returned, and the Guardian is as it was. *)
Theorem reconnect_error_is_construction_error ctx s h err s' :
  driver (this s) = Some h ->
  reconnect ctx s = Some (Returned (Some err), s') ->
  exists e0 w1,
    DriverVerifyConnectivity h ctx (world s) = (Some e0, w1)
    /\ NewDriverWithContext (dbURI (this s))
         (BasicAuth (user (this s)) (password (this s)) "") w1
       = (inr err, world s')
    /\ this s' = this s
    /\ existsb is_driver_close
         (skipn (length (log s)) (log s')) = false.
Proof.
  intros Hd H. rewrite (reconnect_cases ctx s h Hd) in H.
  destruct (DriverVerifyConnectivity h ctx (world s)) as [[e0|] w1] eqn:Hv;
    cbn [fst snd] in H; [|discriminate].
  destruct (NewDriverWithContext _ _ w1) as [[h'|failure] w2] eqn:Hn;
    cbn [fst snd] in H; [discriminate|].
  injection H as <- <-. exists e0, w1. cbn [world this log after].
  split; [reflexivity|]. split; [exact Hn|]. split; [reflexivity|].
  rewrite skipn_app, skipn_all, Nat.sub_diag. reflexivity.
Qed.

(** ** [Close], again and again *)

Lemma Close_some ctx s h :
  driver (this s) = Some h ->
  Close ctx s
  = Some (Returned tt,
          after s (snd (DriverClose h ctx (world s)))
            [AccessLock; CallDriverClose h; AccessUnlock]).
Proof.
  intros Hd. unfold Close; cbn -[nonblockClose]. unfold defer.
  rewrite (nonblockClose_some ctx _ h) by exact Hd. cbn.
  unfold after. cbn. now rewrite <- !app_assoc.
Qed.

(** X13: [Close] does not remember that it has run.  Called [n] times in a
    row on a Guardian that holds handle [h], it takes the write lock, calls
    [Close] on [h] and releases the lock [n] times over, and the Guardian
    still holds [h] with the same parameters. *)
Theorem Close_is_repeated ctx n s h :
  driver (this s) = Some h ->
  exists s',
    Close_times n ctx s = Some (Returned tt, s')
    /\ this s' = this s
    /\ log s' = log s ++
         concat (repeat [AccessLock; CallDriverClose h; AccessUnlock] n).
Proof.
  revert s. induction n as [|n IH]; intros s Hd.
  - exists s. cbn. split; [reflexivity|]. split; [reflexivity|].
    now rewrite app_nil_r.
  - pose proof (Close_some ctx s h Hd) as Hc.
    set (s1 := after s (snd (DriverClose h ctx (world s)))
                 [AccessLock; CallDriverClose h; AccessUnlock]) in Hc.
    destruct (IH s1 Hd) as (s' & Hn & Ht' & Hlog').
    exists s'. split.
    + cbn [Close_times]. cbn -[Close Close_times]. rewrite Hc. exact Hn.
    + split; [exact Ht'|]. rewrite Hlog'. cbn.
      now rewrite <- !app_assoc.
Qed.

(** ** From the settings to the rebuilt handle *)

(** X14: the settings survive the trip through the Guardian.  In the
    scenario of the test suite (build a Guardian from [settings], [Close]
    it, then [ExecuteQuery]), every handle construction, the first one and
    each rebuild of a reconnect, is made with the connection string of
    [settings] and with the basic authentication of its user and password,
    with an empty realm. *)
Theorem rebuilds_use_the_settings (settings : Settings) depth ctx query
    params (onResults : ResultsHookFn) s o s' :
  close_then_query settings depth ctx query params onResults s
  = Some (o, s') ->
  exists evs,
    log s' = log s ++ evs
    /\ Forall
         (fun e =>
            match e with
            | CallNewDriver target auth _ =>
                target = ConnectionString settings
                /\ auth = BasicAuth (User settings) (Password settings) ""
            | _ => True
            end) evs.
Proof.
  unfold close_then_query, connectToNeo.
  cbn -[NewDriver Close ExecuteQuery]. rewrite NewDriver_eq. cbv zeta.
  destruct (NewDriverWithContext _ _ (world s)) as [[h0|failure] w1].
  - cbn -[Close ExecuteQuery].
    set (d0 := {| driver := Some h0; dbURI := ConnectionString settings;
                  user := User settings; password := Password settings |}).
    match goal with |- context [Close ctx ?st] => set (s1 := st) end.
    rewrite (Close_some ctx s1 h0 eq_refl).
    match goal with |- context [ExecuteQuery _ _ _ _ _ ?st] =>
      set (s2 := st) end.
    intros H.
    apply (ExecuteQuery_attempt _ _ _ _ _ s2 _ _ h0 eq_refl) in H.
    destruct H as (evs & Hatt & Hlog).
    apply attempt_faithful in Hatt.
    exists (CallNewDriver (ConnectionString settings)
              (BasicAuth (User settings) (Password settings) "") (inl h0)
            :: [AccessLock; CallDriverClose h0; AccessUnlock]
            ++ AccessRLock :: evs ++ [AccessRUnlock]).
    split.
    + rewrite Hlog. subst s2 s1. cbn. now rewrite <- !app_assoc.
    + apply Forall_cons; [now split|].
      apply Forall_app. split; [now repeat constructor|].
      apply Forall_cons; [exact I|].
      apply Forall_app. split; [|now repeat constructor].
      revert Hatt. apply Forall_impl. intros e He.
      destruct e; auto.
  - intros H. injection H as <- <-. eexists. split; [reflexivity|].
    now repeat constructor.
Qed.

(** ** Which handle is used *)

Lemma last_cons_default {A} (a d : A) (l : list A) :
  last (a :: l) d = last l a.
Proof.
  revert a d. induction l as [|b l IH]; intros a d; [reflexivity|].
  change (last (a :: b :: l) d) with (last (b :: l) d).
  now rewrite !IH.
Qed.

Lemma uses_current_handle_app cur evs1 evs2 :
  uses_current_handle cur evs1 ->
  uses_current_handle (last (built_handles evs1) cur) evs2 ->
  uses_current_handle cur (evs1 ++ evs2).
Proof.
  revert cur. induction evs1 as [|e evs1 IH]; intros cur H1 H2; [exact H2|].
  destruct e as [| | | | | |target auth [h'|failure]| | | | | |];
    cbn [built_handles app uses_current_handle] in *;
    try (apply IH; assumption);
    try (destruct H1 as [-> H1]; split; [reflexivity | now apply IH]).
  rewrite last_cons_default in H2. now apply IH.
Qed.

Lemma attempt_uses_current_handle ctx query params
    (onResults : ResultsHookFn) d w evs o d' w' :
  attempt ctx query params onResults d w evs o d' w' ->
  forall h,
    driver d = Some h ->
    uses_current_handle h evs
    /\ driver d' = Some (last (built_handles evs) h).
Proof.
  induction 1 as
    [ d w h0 | d w h0 | d w h0
    | d w h0 session w1 err w2 w3 evs o d' w' ce w'' Hd Hs Hr Hn Hv Hatt IH Hc
    | d w h0 session w1 err w2 e0 w3 h1 w4 cd w5 evs o d' w' ce w'' Hd Hs Hr
        Hn Hv Hb Hcd Hatt IH Hc ];
    intros h Hh; rewrite Hh in *;
    match goal with H : Some _ = Some _ |- _ => injection H as <- end.
  - cbn. auto.
  - cbn. auto.
  - cbn. auto.
  - destruct (IH h eq_refl) as [Huse Hlast].
    rewrite !built_handles_app. cbn [built_handles app].
    rewrite app_nil_r. split; [|exact Hlast].
    cbn [app uses_current_handle]. repeat split.
    apply uses_current_handle_app; [exact Huse | exact I].
  - destruct (IH h1 eq_refl) as [Huse Hlast].
    rewrite !built_handles_app. cbn [built_handles app].
    rewrite app_nil_r, last_cons_default. split; [|exact Hlast].
    cbn [app uses_current_handle]. repeat split.
    apply uses_current_handle_app; [exact Huse | exact I].
Qed.

(** X16: a retry goes to the handle that replaced the broken one.  In a
    call of [ExecuteQuery] that comes back, every session is opened on the
    handle the Guardian holds at that point, and every verification is
    made of it: the handle it started with until a reconnect builds
    another, then the last one built.  That last one is the handle the
    Guardian holds when the call comes back. *)
Theorem ExecuteQuery_uses_the_current_handle ctx query params
    (onResults : ResultsHookFn) depth s o s' h :
  driver (this s) = Some h ->
  ExecuteQuery depth ctx query params onResults s = Some (o, s') ->
  exists evs,
    log s' = log s ++ evs
    /\ uses_current_handle h evs
    /\ driver (this s') = Some (last (built_handles evs) h).
Proof.
  intros Hd H. apply (ExecuteQuery_attempt _ _ _ _ _ _ _ _ h Hd) in H.
  destruct H as (evs & Hatt & Hlog).
  destruct (attempt_uses_current_handle _ _ _ _ _ _ _ _ _ _ Hatt h Hd)
    as [Huse Hlast].
  exists (AccessRLock :: evs ++ [AccessRUnlock]).
  split; [exact Hlog|]. cbn [built_handles uses_current_handle].
  rewrite built_handles_app. cbn [built_handles]. rewrite app_nil_r.
  split; [|exact Hlast].
  apply uses_current_handle_app; [exact Huse | exact I].
Qed.

End Further.

Section FurtherSimpleQuery.
Context {E : Environment} {C : Cursor E}.

(** ** The query of the test suite *)

(** X15: what [executeSimpleQuery] makes of the cursor, on a Guardian whose
    handle runs the query.  It returns nil exactly when the cursor gives a
    record whose first value is a boolean; the error "no records" exactly
    when the cursor gives no record or a record without values; and the
    error "expected value to be bool" exactly when the first value is not
    a boolean.  The hook does not panic. *)
Theorem executeSimpleQuery_verdict depth ctx s h session w1 result w2 record
    w3 :
  driver (this s) = Some h ->
  DriverNewSession h ctx write_mode (world s) = (session, w1) ->
  SessionRun session ctx "CREATE (test:Test) return true" [] w1
  = (inl result, w2) ->
  NextRecord result ctx w2 = (record, w3) ->
  exists verdict s',
    executeSimpleQuery (S depth) ctx s = Some (Returned verdict, s')
    /\ (verdict = None
        <-> exists r b rest, record = Some r /\ Values r = BoolField b :: rest)
    /\ (verdict = Some (errorString "no records")
        <-> record = None \/ exists r, record = Some r /\ Values r = [])
    /\ (verdict = Some (errorString "expected value to be bool")
        <-> exists r v rest,
              record = Some r /\ Values r = v :: rest
              /\ forall b, v <> BoolField b).
Proof.
  intros Hd Hs Hr Hnext.
  set (verdict :=
         match record with
         | None => Some (errorString "no records")
         | Some r =>
             match Values r with
             | [] => Some (errorString "no records")
             | BoolField _ :: _ => None
             | _ :: _ => Some (errorString "expected value to be bool")
             end
         end).
  assert (Hh : simple_hook ctx result w2 = (Returned verdict, w3)).
  { unfold simple_hook. now rewrite Hnext. }
  destruct (SessionClose session ctx w3) as [ce w4] eqn:Hc.
  exists verdict. eexists. split.
  - unfold executeSimpleQuery. rewrite ExecuteQuery_eq.
    apply defer_emit_eq.
    exact (nonblock_hook depth ctx _ _ (simple_hook ctx)
             (after s (world s) [AccessRLock]) h session w1 result w2
             (Returned verdict) w3 ce w4 Hd Hs Hr Hh Hc).
  - subst verdict. destruct record as [r|].
    + destruct (Values r) as [|v rest] eqn:Hv.
      * split; [|split]; split; try discriminate.
        -- intros (r' & b & rest & Hr' & Hv'). injection Hr' as <-.
           congruence.
        -- intros _. right. now exists r.
        -- reflexivity.
        -- intros (r' & v & rest & Hr' & Hv' & _). injection Hr' as <-.
           congruence.
      * destruct v as [b| |rendering].
        -- split; [|split]; split; try discriminate.
           ++ intros _. now exists r, b, rest.
           ++ reflexivity.
           ++ intros [Hn|(r' & Hr' & Hv')]; [discriminate|].
              injection Hr' as <-. congruence.
           ++ intros (r' & v & rest' & Hr' & Hv' & Hnb).
              injection Hr' as <-. rewrite Hv in Hv'.
              injection Hv' as <- <-. now destruct (Hnb b).
        -- split; [|split]; split; try discriminate.
           ++ intros (r' & b & rest' & Hr' & Hv'). injection Hr' as <-.
              congruence.
           ++ intros [Hn|(r' & Hr' & Hv')]; [discriminate|].
              injection Hr' as <-. congruence.
           ++ intros _. exists r, NilField, rest. now repeat split.
           ++ reflexivity.
        -- split; [|split]; split; try discriminate.
           ++ intros (r' & b & rest' & Hr' & Hv'). injection Hr' as <-.
              congruence.
           ++ intros [Hn|(r' & Hr' & Hv')]; [discriminate|].
              injection Hr' as <-. congruence.
           ++ intros _. exists r, (OtherField rendering), rest.
              now repeat split.
           ++ reflexivity.
    + split; [|split]; split; try discriminate.
      * intros (r & b & rest & Hr' & _). discriminate.
      * intros _. now left.
      * reflexivity.
      * intros (r & v & rest & Hr' & _). discriminate.
Qed.

End FurtherSimpleQuery.

(** * Further runs on the scripted worlds *)

(** ** X1 *)

Lemma ExecuteQuery_keeps_the_parameters_witness :
  exists o s',
    ExecuteQuery 2 tt Sim.simple_query Sim.no_params Sim.hook_ok
      (Sim.start Sim.outage)
    = Some (o, s')
    /\ (dbURI (this s') = dbURI (this (Sim.start Sim.outage))
        /\ user (this s') = user (this (Sim.start Sim.outage))
        /\ password (this s') = password (this (Sim.start Sim.outage))
        /\ (driver (this s') = None
            <-> driver (this (Sim.start Sim.outage)) = None)).
Proof.
  do 2 eexists.
  refine ((fun H => conj H
             (ExecuteQuery_keeps_the_parameters (E := Sim.sim) tt
                Sim.simple_query Sim.no_params Sim.hook_ok 2
                (Sim.start Sim.outage) _ _ H)) _).
  vm_compute. reflexivity.
Defined.

(** ** X2 *)

Lemma ExecuteQuery_does_not_panic_witness :
  driver (this (Sim.start Sim.quiet)) = Some 0
  /\ exists o s',
       ExecuteQuery 1 tt Sim.simple_query Sim.no_params
         (Sim.hook_panics (Some (OtherValue "boom"))) (Sim.start Sim.quiet)
       = Some (o, s')
       /\ exists verdict, o = Returned verdict.
Proof.
  split; [reflexivity|]. do 2 eexists.
  refine ((fun H => conj H
             (ExecuteQuery_does_not_panic (E := Sim.sim) tt Sim.simple_query
                Sim.no_params (Sim.hook_panics (Some (OtherValue "boom"))) 1
                (Sim.start Sim.quiet) _ _ 0 eq_refl H)) _).
  vm_compute. reflexivity.
Defined.

(** ** X3 *)

Lemma ExecuteQuery_without_handle_witness :
  driver (this (Sim.boot Sim.pristine)) = None
  /\ ExecuteQuery 1 tt Sim.simple_query Sim.no_params Sim.hook_ok
       (Sim.boot Sim.pristine)
     = Some (Panicked nil_dereference,
             after (Sim.boot Sim.pristine) Sim.pristine
               [AccessRLock; AccessRUnlock]).
Proof.
  split; [reflexivity|].
  exact (ExecuteQuery_without_handle (E := Sim.sim) tt Sim.simple_query
           Sim.no_params Sim.hook_ok 0 (Sim.boot Sim.pristine) eq_refl).
Defined.

(** ** X4 *)

Lemma ExecuteQuery_lock_discipline_witness :
  exists o s',
    ExecuteQuery 2 tt Sim.simple_query Sim.no_params Sim.hook_ok
      (Sim.start Sim.outage)
    = Some (o, s')
    /\ exists evs,
         log s'
         = log (Sim.start Sim.outage) ++ AccessRLock :: evs ++ [AccessRUnlock]
         /\ existsb is_access_lock evs = false
         /\ recovery_lock_after false evs = Some false.
Proof.
  do 2 eexists.
  refine ((fun H => conj H
             (ExecuteQuery_lock_discipline (E := Sim.sim) tt Sim.simple_query
                Sim.no_params Sim.hook_ok 2 (Sim.start Sim.outage) _ _ H))
            _).
  vm_compute. reflexivity.
Defined.

(** ** X5 *)

Lemma ExecuteQuery_runs_the_hook_once_witness :
  exists o s',
    ExecuteQuery 2 tt Sim.simple_query Sim.no_params Sim.hook_ok
      (Sim.start Sim.outage)
    = Some (o, s')
    /\ exists evs,
         log s' = log (Sim.start Sim.outage) ++ evs
         /\ count_events is_hook evs <= 1
         /\ (forall result ho,
               In (CallHook result ho) evs ->
               exists w3, o = Returned (hook_verdict (E := Sim.sim) ho w3))
         /\ (o = Returned None ->
             exists pre result ho closes,
               evs = pre ++ CallHook result ho :: closes ++ [AccessRUnlock]
               /\ count_events is_hook pre = 0
               /\ forallb is_session_close closes = true
               /\ (ho = Returned None \/ ho = Panicked None)).
Proof.
  do 2 eexists.
  refine ((fun H => conj H
             (ExecuteQuery_runs_the_hook_once (E := Sim.sim) tt
                Sim.simple_query Sim.no_params Sim.hook_ok 2
                (Sim.start Sim.outage) _ _ H)) _).
  vm_compute. reflexivity.
Defined.

(** ** X6 *)

Lemma ExecuteQuery_sessions_round_by_round_witness :
  exists o s',
    ExecuteQuery 2 tt Sim.simple_query Sim.no_params Sim.hook_ok
      (Sim.start Sim.outage)
    = Some (o, s')
    /\ exists rounds closes,
         log s'
         = log (Sim.start Sim.outage)
           ++ AccessRLock :: rounds ++ closes ++ [AccessRUnlock]
         /\ existsb is_session_close rounds = false
         /\ forallb is_session_close closes = true
         /\ ran_sessions rounds = opened_sessions rounds
         /\ closed_sessions closes = rev (opened_sessions rounds)
         /\ count_events is_reconnect rounds
            <= length (opened_sessions rounds)
         /\ length (opened_sessions rounds)
            <= count_events is_reconnect rounds + 1
         /\ count_events is_failed_construction rounds <= 1
         /\ (forall target auth failure,
               In (CallNewDriver target auth (inr failure)) rounds ->
               exists pre,
                 rounds = pre ++ [CallNewDriver target auth (inr failure);
                                  RecoveryUnlock])
         /\ (driver (this (Sim.start Sim.outage)) <> None ->
             length (opened_sessions rounds)
             + count_events is_failed_construction rounds
             = count_events is_reconnect rounds + 1).
Proof.
  do 2 eexists.
  refine ((fun H => conj H
             (ExecuteQuery_sessions_round_by_round (E := Sim.sim) tt
                Sim.simple_query Sim.no_params Sim.hook_ok 2
                (Sim.start Sim.outage) _ _ H)) _).
  vm_compute. reflexivity.
Defined.

(** ** X7 *)

Lemma ExecuteQuery_closes_replaced_handles_witness :
  driver (this (Sim.start Sim.outage)) = Some 0
  /\ exists o s',
       ExecuteQuery 2 tt Sim.simple_query Sim.no_params Sim.hook_ok
         (Sim.start Sim.outage)
       = Some (o, s')
       /\ exists evs h',
            log s' = log (Sim.start Sim.outage) ++ evs
            /\ driver (this s') = Some h'
            /\ 0 :: built_handles evs = closed_handles evs ++ [h'].
Proof.
  split; [reflexivity|]. do 2 eexists.
  refine ((fun H => conj H
             (ExecuteQuery_closes_replaced_handles (E := Sim.sim) tt
                Sim.simple_query Sim.no_params Sim.hook_ok 2
                (Sim.start Sim.outage) _ _ 0 eq_refl H)) _).
  vm_compute. reflexivity.
Defined.

(** ** X8 *)

Lemma ExecuteQuery_repeats_the_request_witness :
  exists o s',
    ExecuteQuery 2 tt Sim.simple_query Sim.no_params Sim.hook_ok
      (Sim.start Sim.outage)
    = Some (o, s')
    /\ exists evs,
         log s' = log (Sim.start Sim.outage) ++ evs
         /\ Forall
              (faithful_request (this (Sim.start Sim.outage))
                 Sim.simple_query Sim.no_params) evs.
Proof.
  do 2 eexists.
  refine ((fun H => conj H
             (ExecuteQuery_repeats_the_request (E := Sim.sim) tt
                Sim.simple_query Sim.no_params Sim.hook_ok 2
                (Sim.start Sim.outage) _ _ H)) _).
  vm_compute. reflexivity.
Defined.

(** ** X9 *)

Lemma ExecuteQuery_has_no_retry_cap_witness :
  (forall session w, exists err w',
      SessionRun (Environment := Down.down) session tt Sim.simple_query
        Sim.no_params w = (inr err, w')
      /\ connectivity_class err)
  /\ (forall target auth w, exists h' w',
         NewDriverWithContext (Environment := Down.down) target auth w
         = (inl h', w'))
  /\ driver (this Down.start) = Some 0
  /\ ExecuteQuery (E := Down.down) 50 tt Sim.simple_query Sim.no_params
       Down.hook_ok Down.start
     = None.
Proof.
  assert (Hrun : forall session w, exists err w',
             SessionRun (Environment := Down.down) session tt
               Sim.simple_query Sim.no_params w = (inr err, w')
             /\ connectivity_class err).
  { intros session w. exists Sim.unreachable, w.
    split; [reflexivity | exact unreachable_is_connectivity]. }
  assert (Hbuild : forall target auth w, exists h' w',
             NewDriverWithContext (Environment := Down.down) target auth w
             = (inl h', w')).
  { intros target auth w. exists w, (S w). reflexivity. }
  split; [exact Hrun|]. split; [exact Hbuild|]. split; [reflexivity|].
  exact (ExecuteQuery_has_no_retry_cap (E := Down.down) tt Sim.simple_query
           Sim.no_params Down.hook_ok Hrun Hbuild 50 Down.start 0 eq_refl).
Defined.

(** ** X10 *)

Lemma ExecuteQuery_error_source_witness :
  exists s',
    ExecuteQuery 2 tt Sim.simple_query Sim.no_params Sim.hook_ok
      (Sim.start Sim.blackout)
    = Some (Returned (Some Sim.refused), s')
    /\ exists evs,
         log s' = log (Sim.start Sim.blackout) ++ evs
         /\ error_source evs Sim.refused.
Proof.
  eexists.
  refine ((fun H => conj H
             (ExecuteQuery_error_source (E := Sim.sim) tt Sim.simple_query
                Sim.no_params Sim.hook_ok 2 (Sim.start Sim.blackout) _
                Sim.refused H)) _).
  vm_compute. reflexivity.
Defined.

(** ** X11 *)

Lemma reconnect_replaces_the_handle_witness :
  driver (this (Sim.start Sim.outage_seen)) = Some 0
  /\ DriverVerifyConnectivity 0 tt Sim.outage_seen
     = (Some Sim.refused, Sim.quiet)
  /\ NewDriverWithContext "neo4j://localhost" Sim.auth Sim.quiet
     = (inl 1, Sim.faulty 2 [] [] [])
  /\ exists s',
       reconnect tt (Sim.start Sim.outage_seen) = Some (Returned None, s')
       /\ this s' = with_handle (this (Sim.start Sim.outage_seen)) 1
       /\ world s' = snd (DriverClose 0 tt (Sim.faulty 2 [] [] []))
       /\ log s'
          = log (Sim.start Sim.outage_seen) ++
            [RecoveryLock;
             CallVerifyConnectivity 0 (Some Sim.refused);
             CallNewDriver "neo4j://localhost" Sim.auth (inl 1);
             CallDriverClose 0;
             RecoveryUnlock].
Proof.
  do 3 (split; [reflexivity|]).
  exact (reconnect_replaces_the_handle (E := Sim.sim) tt
           (Sim.start Sim.outage_seen) 0 Sim.refused Sim.quiet 1
           (Sim.faulty 2 [] [] []) eq_refl eq_refl eq_refl).
Defined.

(** ** X12 *)

Lemma reconnect_error_is_construction_error_witness :
  driver (this (Sim.start (Sim.faulty 1 [] [Sim.refused] [Sim.syntax_error])))
  = Some 0
  /\ exists s',
       reconnect tt
         (Sim.start (Sim.faulty 1 [] [Sim.refused] [Sim.syntax_error]))
       = Some (Returned (Some Sim.syntax_error), s')
       /\ exists e0 w1,
            DriverVerifyConnectivity 0 tt
              (Sim.faulty 1 [] [Sim.refused] [Sim.syntax_error])
            = (Some e0, w1)
            /\ NewDriverWithContext "neo4j://localhost" Sim.auth w1
               = (inr Sim.syntax_error, world s')
            /\ this s' = Sim.guardian 0
            /\ existsb is_driver_close (skipn 0 (log s')) = false.
Proof.
  split; [reflexivity|]. eexists.
  refine ((fun H => conj H
             (reconnect_error_is_construction_error (E := Sim.sim) tt
                (Sim.start (Sim.faulty 1 [] [Sim.refused] [Sim.syntax_error]))
                0 Sim.syntax_error _ eq_refl H)) _).
  vm_compute. reflexivity.
Defined.

(** ** X13 *)

Lemma Close_is_repeated_witness :
  driver (this (Sim.start Sim.quiet)) = Some 0
  /\ exists s',
       Close_times 3 tt (Sim.start Sim.quiet) = Some (Returned tt, s')
       /\ this s' = this (Sim.start Sim.quiet)
       /\ log s'
          = log (Sim.start Sim.quiet) ++
            concat (repeat [AccessLock; CallDriverClose 0; AccessUnlock] 3).
Proof.
  split; [reflexivity|].
  exact (Close_is_repeated (E := Sim.sim) tt 3 (Sim.start Sim.quiet) 0
           eq_refl).
Defined.

(** ** X14 *)

Lemma rebuilds_use_the_settings_witness :
  exists o s',
    close_then_query Sim.connectionSettings 2 tt Sim.simple_query
      Sim.no_params Sim.hook_ok (Sim.boot Sim.pristine)
    = Some (o, s')
    /\ exists evs,
         log s' = log (Sim.boot Sim.pristine) ++ evs
         /\ Forall
              (fun e =>
                 match e with
                 | CallNewDriver target auth _ =>
                     target = ConnectionString Sim.connectionSettings
                     /\ auth = BasicAuth (User Sim.connectionSettings)
                                 (Password Sim.connectionSettings) ""
                 | _ => True
                 end) evs.
Proof.
  do 2 eexists.
  refine ((fun H => conj H
             (rebuilds_use_the_settings (E := Sim.sim) Sim.connectionSettings
                2 tt Sim.simple_query Sim.no_params Sim.hook_ok
                (Sim.boot Sim.pristine) _ _ H)) _).
  vm_compute. reflexivity.
Defined.

(** ** X15 *)

Lemma executeSimpleQuery_verdict_witness :
  driver (this (Sim.start Sim.quiet)) = Some 0
  /\ DriverNewSession 0 tt write_mode Sim.quiet = (0, Sim.quiet)
  /\ SessionRun 0 tt "CREATE (test:Test) return true" [] Sim.quiet
     = (inl 0, Sim.quiet)
  /\ NextRecord (Cursor := SimCursor.cursor) 0 tt Sim.quiet
     = (Some {| Values := [BoolField true]; Keys := ["true"%string] |},
        Sim.quiet)
  /\ exists verdict s',
       executeSimpleQuery (C := SimCursor.cursor) 1 tt (Sim.start Sim.quiet)
       = Some (Returned verdict, s')
       /\ (verdict = None
           <-> exists r b rest,
                 Some {| Values := [BoolField true]; Keys := ["true"%string] |}
                 = Some r
                 /\ Values r = BoolField b :: rest)
       /\ (verdict = Some (errorString "no records")
           <-> Some {| Values := [BoolField true]; Keys := ["true"%string] |}
               = None
               \/ exists r,
                    Some {| Values := [BoolField true];
                            Keys := ["true"%string] |} = Some r
                    /\ Values r = [])
       /\ (verdict = Some (errorString "expected value to be bool")
           <-> exists r v rest,
                 Some {| Values := [BoolField true]; Keys := ["true"%string] |}
                 = Some r
                 /\ Values r = v :: rest
                 /\ forall b, v <> BoolField b).
Proof.
  do 4 (split; [reflexivity|]).
  exact (executeSimpleQuery_verdict (E := Sim.sim) (C := SimCursor.cursor) 0
           tt (Sim.start Sim.quiet) 0 0 Sim.quiet 0 Sim.quiet
           (Some {| Values := [BoolField true]; Keys := ["true"%string] |})
           Sim.quiet eq_refl eq_refl eq_refl eq_refl).
Defined.

(** ** X16 *)

Lemma ExecuteQuery_uses_the_current_handle_witness :
  driver (this (Sim.start Sim.outage)) = Some 0
  /\ exists o s',
       ExecuteQuery 2 tt Sim.simple_query Sim.no_params Sim.hook_ok
         (Sim.start Sim.outage)
       = Some (o, s')
       /\ exists evs,
            log s' = log (Sim.start Sim.outage) ++ evs
            /\ uses_current_handle 0 evs
            /\ driver (this s') = Some (last (built_handles evs) 0).
Proof.
  split; [reflexivity|]. do 2 eexists.
  refine ((fun H => conj H
             (ExecuteQuery_uses_the_current_handle (E := Sim.sim) tt
                Sim.simple_query Sim.no_params Sim.hook_ok 2
                (Sim.start Sim.outage) _ _ 0 eq_refl H)) _).
  vm_compute. reflexivity.
Defined.
